(** * aws_sql_editor: the Flask query gateway of [app.py]

    A shallow embedding of the request handlers of [app.py] and the
    properties of its result shaping, input validation and error mapping.

    Python strings are sequences of Unicode code points, so [len], slicing
    and [strip] are modelled on lists of code points.  The database module
    [aws_db] is an external collaborator: its operations are the fields of
    a record the handlers are parameterised by. *)

From Stdlib Require Import List NArith ZArith Bool Lia.
From Stdlib Require String Ascii DecimalString.
Import String.StringSyntax.
From Stdlib Require Import Sorted Permutation.
From Stdlib Require Import Floats.SpecFloat.
Import ListNotations.

Set Implicit Arguments.
Set Warnings "-register-all".

(* ================================================================= *)
(** ** Python strings *)

Module PyStr.

(** A character is a Unicode code point; a [str] is a list of them. *)
Definition char := N.
Definition pystr := list char.

(** String literals of the source, written in ASCII. *)
Fixpoint lit (s : String.string) : pystr :=
  match s with
  | String.EmptyString => []
  | String.String c t => Ascii.N_of_ascii c :: lit t
  end.
Arguments lit s%_string_scope.

Definition eqb (a b : pystr) : bool :=
  if list_eq_dec N.eq_dec a b then true else false.

(** [str.isspace] on one character, as [str.strip()] uses it: the code
    points whose bidirectional class is WS, B or S, or whose category is
    Zs. *)
Definition isspace (c : char) : bool :=
  ((9 <=? c) && (c <=? 13) || (28 <=? c) && (c <=? 32)
   || (c =? 133) || (c =? 160) || (c =? 5760)
   || (8192 <=? c) && (c <=? 8202)
   || (c =? 8232) || (c =? 8233) || (c =? 8239) || (c =? 8287)
   || (c =? 12288))%N.

Fixpoint lstrip (s : pystr) : pystr :=
  match s with
  | [] => []
  | c :: t => if isspace c then lstrip t else s
  end.

Definition rstrip (s : pystr) : pystr := rev (lstrip (rev s)).

(** [s.strip()] *)
Definition strip (s : pystr) : pystr := rstrip (lstrip s).

(** [a < b] on strings: lexicographic on code points. *)
Fixpoint ltb (a b : pystr) : bool :=
  match a, b with
  | _, [] => false
  | [], _ :: _ => true
  | x :: a', y :: b' =>
      if (x <? y)%N then true
      else if (y <? x)%N then false
      else ltb a' b'
  end.

(** [sep.join(parts)] *)
Fixpoint join (sep : pystr) (parts : list pystr) : pystr :=
  match parts with
  | [] => []
  | [p] => p
  | p :: rest => p ++ sep ++ join sep rest
  end.

(** [s.encode("utf-8")]: [None] stands for [UnicodeEncodeError], raised
    on a surrogate code point. *)
Definition utf8_char (c : char) : option (list N) :=
  (if c <? 128 then Some [c]
   else if c <? 2048 then Some [192 + c / 64; 128 + c mod 64]
   else if c <? 65536 then
     if (55296 <=? c) && (c <=? 57343) then None
     else Some [224 + c / 4096; 128 + (c / 64) mod 64; 128 + c mod 64]
   else if c <? 1114112 then
     Some [240 + c / 262144; 128 + (c / 4096) mod 64;
           128 + (c / 64) mod 64; 128 + c mod 64]
   else None)%N.

Fixpoint encode_utf8 (s : pystr) : option (list N) :=
  match s with
  | [] => Some []
  | c :: t =>
      match utf8_char c, encode_utf8 t with
      | Some b, Some bs => Some (b ++ bs)
      | _, _ => None
      end
  end.

End PyStr.
Import PyStr.

(* ================================================================= *)
(** ** Python values *)

(** Values that travel through the handlers: the parsed JSON body of a
    request, and the bodies handed to [jsonify].  A [dict] keeps its
    items in insertion order. *)
Inductive pyval : Type :=
| PNone
| PBool (b : bool)
| PInt (z : Z)
| PFloat (f : spec_float)
| PStr (s : pystr)
| PList (l : list pyval)
| PDict (d : list (pystr * pyval)).

(** Truth value of an object, as [or], [not] and [if] test it. *)
Definition truthy (v : pyval) : bool :=
  match v with
  | PNone => false
  | PBool b => b
  | PInt z => negb (z =? 0)%Z
  | PFloat (S754_zero _) => false
  | PFloat _ => true
  | PStr s => match s with [] => false | _ => true end
  | PList l => match l with [] => false | _ => true end
  | PDict d => match d with [] => false | _ => true end
  end.

(** [a or b] *)
Definition py_or (a b : pyval) : pyval := if truthy a then a else b.

(** [d.get(k)] on the items of a dict. *)
Fixpoint dict_get {V : Type} (d : list (pystr * V)) (k : pystr) : option V :=
  match d with
  | [] => None
  | (k', v) :: rest => if PyStr.eqb k' k then Some v else dict_get rest k
  end.

(** [d[k] = v]: an existing key keeps its position. *)
Fixpoint dict_set {V : Type} (d : list (pystr * V)) (k : pystr) (v : V)
  : list (pystr * V) :=
  match d with
  | [] => [(k, v)]
  | (k', v') :: rest =>
      if PyStr.eqb k' k then (k, v) :: rest else (k', v') :: dict_set rest k v
  end.

(** [{k: v for k, v in items}] *)
Definition dict_of_items {V : Type} (items : list (pystr * V))
  : list (pystr * V) :=
  fold_left (fun d kv => dict_set d (fst kv) (snd kv)) items [].

(** [sorted(items, key=lambda kv: kv[0])]: a stable sort that compares
    keys with [<] only. *)
Fixpoint insert_by_key {V : Type} (x : pystr * V) (l : list (pystr * V))
  : list (pystr * V) :=
  match l with
  | [] => [x]
  | y :: rest =>
      if PyStr.ltb (fst y) (fst x) then y :: insert_by_key x rest
      else x :: l
  end.

Definition sorted_by_key {V : Type} (items : list (pystr * V))
  : list (pystr * V) :=
  fold_right (@insert_by_key V) [] items.

(* ================================================================= *)
(** ** The collaborator and the runtime *)

(** A cell of a fetched row: [None], a [str], or any other object the
    driver produces (numbers, dates, ...), which only [str()] looks at. *)
Inductive cell (Obj : Type) : Type :=
| VNone
| VStr (s : pystr)
| VObj (o : Obj).
Arguments VNone {Obj}.
Arguments VStr {Obj} s.

(** What a cursor holds after [cur.execute(query)] returned:
    [cur.description] ([None], or the column descriptors, name first),
    what [cur.fetchall()] does when called (raise, with the string form
    of the exception, or return the rows), and [cur.rowcount]. *)
Record cursor (Obj : Type) : Type := {
  description : option (list (pystr * Z));
  fetchall : pystr + list (list (cell Obj));
  rowcount : Z
}.

(** The module [aws_db] as the handlers use it.  [World] is everything
    outside the process; a call either raises (left, the string form of
    the exception) or returns (right). *)
Record aws_db_connection (World Obj : Type) : Type := {
  list_databases : World -> (pystr + list pystr) * World;
  create_database : pystr -> World -> (pystr + unit) * World;
  connect_to : pystr -> World -> (pystr + unit) * World;
  list_table_schemas :
    pystr -> World -> (pystr + list (pystr * pystr)) * World;
  conn_cursor_execute : pystr -> World -> (pystr + cursor Obj) * World;
  execute : pystr -> World -> (pystr + unit) * World
}.

(** What the handlers use of the Python runtime: [str(v)] on driver
    objects, [time.perf_counter()], and the float arithmetic
    [round((t1 - t0) * 1000, 2)]. *)
Record runtime (World Obj : Type) : Type := {
  str : Obj -> pystr;
  perf_counter : World -> spec_float * World;
  elapsed_ms : spec_float -> spec_float -> spec_float
}.

(** Collaborator calls, recorded with their argument and whether they
    returned. *)
Inductive call : Type :=
| CallListDatabases
| CallCreateDatabase (name : pystr)
| CallConnectTo (name : pystr)
| CallListTableSchemas (schema : pystr)
| CallCursorExecute (query : pystr)
| CallExecute (query : pystr).

(** The process: the module global [_current_db], the world behind the
    shared connection [db], and the trace of collaborator calls. *)
Record state (World : Type) : Type := {
  _current_db : pystr;
  world : World;
  calls : list (call * bool)
}.

(** Exceptions that leave a handler. *)
Inductive exn : Type :=
| BadRequest (description : pystr)
| AttributeError
| UnicodeEncodeError.

(** What Flask sends back. *)
Inductive response : Type :=
| Json (status : Z) (body : pyval)
| Template (name : pystr) (current_db : pystr)
| SendFile (data : list N) (mimetype : pystr) (as_attachment : bool)
    (download_name : pystr)
| ErrorPage (status : Z) (description : pystr).

(** The description of werkzeug's [InternalServerError], which Flask
    answers with when any other exception leaves a handler. *)
Definition internal_server_error : pystr :=
  lit "The server encountered an internal error and was unable to complete your request. Either the server is overloaded or there is an error in the application.".

Definition status_of (r : response) : Z :=
  match r with
  | Json st _ => st
  | Template _ _ => 200
  | SendFile _ _ _ _ => 200
  | ErrorPage st _ => st
  end.

(** The body of a POST as [request.get_json(silent=True)] sees it. *)
Inductive body : Type :=
| NoBody
| NotJson (raw : list N)
| JsonBody (v : pyval).

Definition get_json_silent (b : body) : pyval :=
  match b with
  | JsonBody v => v
  | _ => PNone
  end.

(* ================================================================= *)
(** ** Handlers run in a state-and-exception monad *)

Definition M (World A : Type) : Type :=
  state World -> (exn + A) * state World.

Definition ret {World A} (a : A) : M World A := fun s => (inr a, s).

Definition bind {World A B} (c : M World A) (k : A -> M World B)
  : M World B :=
  fun s =>
    match c s with
    | (inl e, s') => (inl e, s')
    | (inr a, s') => k a s'
    end.

Definition raise {World A} (e : exn) : M World A := fun s => (inl e, s).

Notation "x <- c ;; k" := (bind c (fun x => k))
  (at level 61, c at next level, right associativity).
Notation "' p <- c ;; k" := (bind c (fun x => match x with p => k end))
  (at level 61, p pattern, c at next level, right associativity).

Definition returned {E A} (r : E + A) : bool :=
  match r with
  | inl _ => false
  | inr _ => true
  end.

(** A collaborator call: run it on the world and record it. *)
Definition invoke {World A} (c : call)
    (op : World -> (pystr + A) * World) : M World (pystr + A) :=
  fun s =>
    let '(r, w) := op (world s) in
    (inr r,
     {| _current_db := _current_db s;
        world := w;
        calls := calls s ++ [(c, returned r)] |}).

Definition read_current_db {World} : M World pystr :=
  fun s => (inr (_current_db s), s).

Definition write_current_db {World} (name : pystr) : M World unit :=
  fun s =>
    (inr tt,
     {| _current_db := name; world := world s; calls := calls s |}).

(** [time.perf_counter()] *)
Definition now {World Obj} (py : runtime World Obj) : M World spec_float :=
  fun s =>
    let '(t, w) := perf_counter py (world s) in
    (inr t,
     {| _current_db := _current_db s; world := w; calls := calls s |}).

(** [payload.get(field)]: only a dict has [get]. *)
Definition payload_get {World} (payload : pyval) (field : pystr)
  : M World pyval :=
  match payload with
  | PDict d =>
      ret (match dict_get d field with Some v => v | None => PNone end)
  | _ => raise AttributeError
  end.

(** [v.strip()]: only a [str] has [strip]. *)
Definition value_strip {World} (v : pyval) : M World pystr :=
  match v with
  | PStr s => ret (strip s)
  | _ => raise AttributeError
  end.

(** [(payload.get(field) or "").strip()] with
    [payload = request.get_json(silent=True) or {}] *)
Definition stripped_field {World} (b : body) (field : pystr)
  : M World pystr :=
  let payload := py_or (get_json_silent b) (PDict []) in
  v <- payload_get payload field ;;
  value_strip (py_or v (PStr [])).

(** [str(v)] on a cell. *)
Definition py_str {Obj} (str_ : Obj -> pystr) (v : cell Obj) : pystr :=
  match v with
  | VNone => lit "None"
  | VStr s => s
  | VObj o => str_ o
  end.

(* ================================================================= *)
(** ** CSV writer: [csv.writer(sio)] with the default dialect *)

Module Csv.

Definition delimiter : char := 44%N.
Definition quotechar : char := 34%N.
Definition lineterminator : pystr := [13; 10]%N.

(** Characters that make the writer quote a field. *)
Definition special (c : char) : bool :=
  (c =? delimiter)%N || (c =? quotechar)%N
  || existsb (N.eqb c) lineterminator.

(** The field's characters, quote characters doubled. *)
Fixpoint escape (s : pystr) : pystr :=
  match s with
  | [] => []
  | c :: t =>
      if (c =? quotechar)%N then quotechar :: quotechar :: escape t
      else c :: escape t
  end.

(** One field appended to the record. *)
Definition join_append (quoted : bool) (s : pystr) : pystr :=
  if quoted || existsb special s
  then [quotechar] ++ escape s ++ [quotechar]
  else escape s.

(** The text written for one field: [None] is empty, a [str] is itself,
    anything else goes through [str()]. *)
Definition field_text {Obj} (str_ : Obj -> pystr) (v : cell Obj) : pystr :=
  match v with
  | VNone => []
  | VStr s => s
  | VObj _ => py_str str_ v
  end.

(** [w.writerow(fields)]: a record that would be empty although it has
    a field is written as one quoted empty field. *)
Definition writerow {Obj} (str_ : Obj -> pystr) (fields : list (cell Obj))
  : pystr :=
  let rec :=
    join [delimiter] (map (fun f => join_append false (field_text str_ f)) fields) in
  let rec :=
    match fields, rec with
    | _ :: _, [] => join_append true []
    | _, _ => rec
    end in
  rec ++ lineterminator.

(** [w.writerows(rows)] *)
Definition writerows {Obj} (str_ : Obj -> pystr)
    (rows : list (list (cell Obj))) : pystr :=
  concat (map (writerow str_) rows).

(** *** Reading a CSV document back

    A reader for the CSV grammar, with the conventions of [csv.reader]:
    fields are separated by the delimiter, records end at a line break,
    a field that starts with the quote character runs to the closing
    quote with doubled quotes standing for one, and an empty line is a
    record without fields.  The handlers never read CSV; the reader says
    what a written document contains. *)

Inductive mode : Type :=
| StartRecord
| AfterCR
| StartField
| InField
| InQuoted
| QuoteInQuoted.

(** The reader: its mode, the characters of the current field (last
    first) and the fields of the current record (last first). *)
Definition reader : Type := (mode * pystr * list pystr)%type.

Definition is_break (c : char) : bool := (c =? 13)%N || (c =? 10)%N.

Definition after_break (c : char) : mode :=
  if (c =? 13)%N then AfterCR else StartRecord.

(** The record that ends when the current field ends. *)
Definition finish (field : pystr) (record : list pystr) : list pystr :=
  rev (rev field :: record).

(** The first character of a field. *)
Definition begin_field (c : char) (record : list pystr)
  : reader * list (list pystr) :=
  if (c =? quotechar)%N then ((InQuoted, [], record), [])
  else if (c =? delimiter)%N then ((StartField, [], [] :: record), [])
  else ((InField, [c], record), []).

(** One character: the next reader and the records completed by it. *)
Definition step (r : reader) (c : char) : reader * list (list pystr) :=
  let '(m, field, record) := r in
  match m with
  | StartRecord =>
      if is_break c then ((after_break c, [], []), [[]])
      else begin_field c []
  | AfterCR =>
      if (c =? 10)%N then ((StartRecord, [], []), [])
      else if is_break c then ((after_break c, [], []), [[]])
      else begin_field c []
  | StartField =>
      if is_break c then ((after_break c, [], []), [finish [] record])
      else begin_field c record
  | InField =>
      if (c =? delimiter)%N then ((StartField, [], rev field :: record), [])
      else if is_break c
      then ((after_break c, [], []), [finish field record])
      else ((InField, c :: field, record), [])
  | InQuoted =>
      if (c =? quotechar)%N then ((QuoteInQuoted, field, record), [])
      else ((InQuoted, c :: field, record), [])
  | QuoteInQuoted =>
      if (c =? quotechar)%N then ((InQuoted, c :: field, record), [])
      else if (c =? delimiter)%N
      then ((StartField, [], rev field :: record), [])
      else if is_break c
      then ((after_break c, [], []), [finish field record])
      else ((InField, c :: field, record), [])
  end.

(** The end of the document completes a record that was begun. *)
Definition at_end (r : reader) : list (list pystr) :=
  let '(m, field, record) := r in
  match m with
  | StartRecord | AfterCR => []
  | _ => [finish field record]
  end.

Fixpoint read_from (r : reader) (text : pystr) : list (list pystr) :=
  match text with
  | [] => at_end r
  | c :: rest => let '(r', done) := step r c in done ++ read_from r' rest
  end.

Definition read (text : pystr) : list (list pystr) :=
  read_from (StartRecord, [], []) text.

(** Where a field may begin: after a delimiter, or at the start of a
    record, which has no fields yet. *)
Definition field_may_begin (m : mode) (record : list pystr) : Prop :=
  m = StartField \/ (m = StartRecord /\ record = []).

End Csv.

(* ================================================================= *)
(** ** The handlers of [app.py] *)

Inductive request : Type :=
| GetIndex
| GetDatabases
| PostDatabases (b : body)
| PostConnect (b : body)
| GetTableSchemas (schema : option pystr)
| PostSql (b : body)
| PostSqlCsv (b : body)
| GetHealthz.

Definition ellipsis : char := 8230%N.

Section Gateway.

Context {World Obj : Type}.
Variable py : runtime World Obj.
Variable db : aws_db_connection World Obj.

Local Abbreviation row := (list (cell Obj)).

(** The statements of [_exec]'s [with] block after [cur.execute]. *)
Definition read_cursor (cur : cursor Obj)
  : pystr + (list pystr * list row * Z) :=
  let cols :=
    map fst (match description cur with Some d => d | None => [] end) in
  let fetched :=
    match description cur with
    | Some (_ :: _) => fetchall cur
    | _ => inr []
    end in
  match fetched with
  | inl e => inl e
  | inr rows => inr (cols, rows, rowcount cur)
  end.

(** The whole [try] block of [_exec]: [db.conn.cursor()],
    [cur.execute(query)], the reads of [cur.description] and
    [cur.rowcount] and, when it is made, [cur.fetchall()].  The trace
    holds one entry for the block, so an entry stands for one use of the
    collaborator by a handler, not for one method call. *)
Definition cursor_block (query : pystr) (w : World)
  : (pystr + (list pystr * list row * Z)) * World :=
  match conn_cursor_execute db query w with
  | (inl e, w') => (inl e, w')
  | (inr cur, w') => (read_cursor cur, w')
  end.

Definition _exec (query : pystr)
  : M World (list pystr * list row * Z * spec_float) :=
  if negb (truthy (PStr query)) || negb (truthy (PStr (strip query)))
  then raise (BadRequest (lit "No query provided."))
  else
    started <- now py ;;
    r <- invoke (CallCursorExecute query) (cursor_block query) ;;
    match r with
    | inl e => raise (BadRequest e)
    | inr (cols, rows, rowcount) =>
        finished <- now py ;;
        ret (cols, rows, rowcount, elapsed_ms py started finished)
    end.

Definition index : M World response :=
  current <- read_current_db ;;
  ret (Template (lit "index.html") current).

Definition api_list_databases : M World response :=
  r <- invoke CallListDatabases (list_databases db) ;;
  match r with
  | inl e => ret (Json 400 (PDict [(lit "error", PStr e)]))
  | inr names =>
      current <- read_current_db ;;
      ret (Json 200 (PDict [(lit "databases", PList (map PStr names));
                            (lit "current", PStr current)]))
  end.

Definition api_create_database (b : body) : M World response :=
  dbname <- stripped_field b (lit "name") ;;
  if negb (truthy (PStr dbname))
  then raise (BadRequest (lit "Database name is required."))
  else
    r <- invoke (CallCreateDatabase dbname) (create_database db dbname) ;;
    match r with
    | inl e => ret (Json 400 (PDict [(lit "error", PStr e)]))
    | inr _ =>
        ret (Json 200 (PDict [(lit "ok", PBool true);
                              (lit "created", PStr dbname)]))
    end.

Definition api_connect_to (b : body) : M World response :=
  dbname <- stripped_field b (lit "name") ;;
  if negb (truthy (PStr dbname))
  then raise (BadRequest (lit "Database name is required."))
  else
    r <- invoke (CallConnectTo dbname) (connect_to db dbname) ;;
    match r with
    | inl e => ret (Json 400 (PDict [(lit "error", PStr e)]))
    | inr _ =>
        _ <- write_current_db dbname ;;
        current <- read_current_db ;;
        ret (Json 200 (PDict [(lit "ok", PBool true);
                              (lit "current", PStr current)]))
    end.

Definition api_table_schemas (arg : option pystr) : M World response :=
  let schema := match arg with Some v => v | None => lit "public" end in
  r <- invoke (CallListTableSchemas schema) (list_table_schemas db schema) ;;
  match r with
  | inl e => ret (Json 400 (PDict [(lit "error", PStr e)]))
  | inr mapping =>
      let ordered_items := sorted_by_key mapping in
      ret (Json 200
             (PDict [(lit "schema", PStr schema);
                     (lit "tables", PList (map (fun kv => PStr (fst kv))
                                             ordered_items));
                     (lit "ddl",
                      PDict (dict_of_items
                               (map (fun kv => (fst kv, PStr (snd kv)))
                                  ordered_items)))]))
  end.

(** [clip]'s first line: ["" if v is None else str(v)]. *)
Definition cell_text (v : cell Obj) : pystr :=
  match v with
  | VNone => []
  | _ => py_str (str py) v
  end.

(** The local function [clip] of [api_sql]. *)
Definition clip (v : cell Obj) : pystr :=
  let s := cell_text v in
  if (length s <=? 2000)%nat then s else firstn 2000 s ++ [ellipsis].

Definition api_sql (b : body) : M World response :=
  query <- stripped_field b (lit "query") ;;
  ' (cols, rows, rowcount, duration_ms) <- _exec query ;;
  ret (Json 200
         (PDict [(lit "columns", PList (map PStr cols));
                 (lit "rows",
                  PList (map (fun r => PList (map (fun c => PStr (clip c)) r))
                           rows));
                 (lit "rowcount", PInt rowcount);
                 (lit "duration_ms", PFloat duration_ms)])).

(** What [sio] holds after the header and the rows are written. *)
Definition csv_text (cols : list pystr) (rows : list row) : pystr :=
  (match cols with
   | [] => []
   | _ :: _ => Csv.writerow (str py) (map VStr cols)
   end) ++ Csv.writerows (str py) rows.

Definition api_sql_csv (b : body) : M World response :=
  query <- stripped_field b (lit "query") ;;
  ' (cols, rows, _, _) <- _exec query ;;
  match encode_utf8 (csv_text cols rows) with
  | None => raise UnicodeEncodeError
  | Some data =>
      ret (SendFile data (lit "text/csv") true (lit "query_results.csv"))
  end.

Definition healthz : M World response :=
  r <- invoke (CallExecute (lit "SELECT 1")) (execute db (lit "SELECT 1")) ;;
  match r with
  | inr _ =>
      current <- read_current_db ;;
      ret (Json 200 (PDict [(lit "ok", PBool true);
                            (lit "db", PStr current)]))
  | inl e =>
      ret (Json 500 (PDict [(lit "ok", PBool false);
                            (lit "error", PStr e)]))
  end.

(** Routing. *)
Definition handler (r : request) : M World response :=
  match r with
  | GetIndex => index
  | GetDatabases => api_list_databases
  | PostDatabases b => api_create_database b
  | PostConnect b => api_connect_to b
  | GetTableSchemas arg => api_table_schemas arg
  | PostSql b => api_sql b
  | PostSqlCsv b => api_sql_csv b
  | GetHealthz => healthz
  end.

(** One request served by Flask: a [BadRequest] that leaves the handler
    becomes a 400 page with its description, any other exception a 500. *)
Definition serve (r : request) (s : state World) : response * state World :=
  match handler r s with
  | (inr resp, s') => (resp, s')
  | (inl (BadRequest d), s') => (ErrorPage 400 d, s')
  | (inl _, s') => (ErrorPage 500 internal_server_error, s')
  end.

End Gateway.

(* ================================================================= *)
(** ** Vocabulary of the properties *)

Section Outcomes.

Context {World Obj : Type}.
Variable py : runtime World Obj.
Variable db : aws_db_connection World Obj.

(** What [_exec] does with a query that passes its guard. *)
Definition exec_outcome (q : pystr) (s : state World)
  : (exn + (list pystr * list (list (cell Obj)) * Z * spec_float))
    * state World :=
  let '(started, w1) := perf_counter py (world s) in
  let '(r, w2) := cursor_block db q w1 in
  match r with
  | inl e =>
      (inl (BadRequest e),
       {| _current_db := _current_db s; world := w2;
          calls := calls s ++ [(CallCursorExecute q, false)] |})
  | inr (cols, rows, rowcount) =>
      let '(finished, w3) := perf_counter py w2 in
      (inr (cols, rows, rowcount, elapsed_ms py started finished),
       {| _current_db := _current_db s; world := w3;
          calls := calls s ++ [(CallCursorExecute q, true)] |})
  end.

(** The body [api_sql] hands to [jsonify]. *)
Definition sql_json (cols : list pystr) (rows : list (list (cell Obj)))
    (rowcount : Z) (duration_ms : spec_float) : pyval :=
  PDict [(lit "columns", PList (map PStr cols));
         (lit "rows",
          PList (map (fun r => PList (map (fun c => PStr (clip py c)) r))
                   rows));
         (lit "rowcount", PInt rowcount);
         (lit "duration_ms", PFloat duration_ms)].

End Outcomes.

(** The POST routes, the field each reads, and the description of the
    [BadRequest] each raises on an empty value. *)
Inductive post_endpoint : Type :=
| SqlEndpoint
| SqlCsvEndpoint
| CreateDatabaseEndpoint
| ConnectEndpoint.

Definition post (ep : post_endpoint) (b : body) : request :=
  match ep with
  | SqlEndpoint => PostSql b
  | SqlCsvEndpoint => PostSqlCsv b
  | CreateDatabaseEndpoint => PostDatabases b
  | ConnectEndpoint => PostConnect b
  end.

Definition expected_field (ep : post_endpoint) : pystr :=
  match ep with
  | SqlEndpoint | SqlCsvEndpoint => lit "query"
  | CreateDatabaseEndpoint | ConnectEndpoint => lit "name"
  end.

Definition rejection (ep : post_endpoint) : pystr :=
  match ep with
  | SqlEndpoint | SqlCsvEndpoint => lit "No query provided."
  | CreateDatabaseEndpoint | ConnectEndpoint =>
      lit "Database name is required."
  end.

Definition is_healthz (r : request) : bool :=
  match r with
  | GetHealthz => true
  | _ => false
  end.

(** The collaborator calls made between two states of the process. *)
Definition calls_during {World} (s s' : state World) : list (call * bool) :=
  skipn (length (calls s)) (calls s').

(** Items compared by key, as [sorted] compares them. *)
Definition key_le {V : Type} (x y : pystr * V) : Prop :=
  PyStr.ltb (fst y) (fst x) = false.
Definition key_lt {V : Type} (x y : pystr * V) : Prop :=
  PyStr.ltb (fst x) (fst y) = true.

(* ================================================================= *)
(** ** A small collaborator to run the handlers on *)

Module Demo.

(** The world is the list of database names of the server. *)
Definition World : Type := list pystr.

(** Driver objects are integers. *)
Definition Obj : Type := Z.

Definition long_text : pystr := repeat 120%N 2500.

Definition known (name : pystr) (w : World) : bool :=
  existsb (PyStr.eqb name) w.

Definition run_query (q : pystr) : pystr + cursor Obj :=
  if PyStr.eqb q (lit "SELECT 1") then
    inr {| description := Some [(lit "?column?", 23%Z)];
           fetchall := inr [[VObj 1%Z]];
           rowcount := 1 |}
  else if PyStr.eqb q (lit "SELECT * FROM notes") then
    inr {| description := Some [(lit "id", 23%Z); (lit "body", 25%Z)];
           fetchall := inr [[VObj 1%Z; VStr long_text];
                            [VObj 2%Z; VNone];
                            [VObj 3%Z; VStr (lit "a,b")]];
           rowcount := 3 |}
  else if PyStr.eqb q (lit "DELETE FROM notes") then
    inr {| description := None;
           fetchall := inl (lit "no results to fetch");
           rowcount := 3 |}
  else inl (lit "syntax error").

Definition db : aws_db_connection World Obj := {|
  list_databases := fun w => (inr w, w);
  create_database := fun name w =>
    if known name w then (inl (lit "database already exists"), w)
    else (inr tt, w ++ [name]);
  connect_to := fun name w =>
    if known name w then (inr tt, w)
    else (inl (lit "database does not exist"), w);
  list_table_schemas := fun schema w =>
    if PyStr.eqb schema (lit "public") then
      (inr [(lit "users", lit "CREATE TABLE users (id integer);");
            (lit "notes", lit "CREATE TABLE notes (id integer, body text);");
            (lit "accounts", lit "CREATE TABLE accounts (id integer);")], w)
    else (inl (lit "schema does not exist"), w);
  conn_cursor_execute := fun q w => (run_query q, w);
  execute := fun q w =>
    match w with
    | [] => (inl (lit "connection refused"), w)
    | _ => (inr tt, w)
    end
|}.

Definition py : runtime World Obj := {|
  str := fun z => lit (DecimalString.NilZero.string_of_int (Z.to_int z));
  perf_counter := fun w => (S754_zero false, w);
  elapsed_ms := fun _ _ => S754_zero false
|}.

Definition start : state World :=
  {| _current_db := lit "postgres";
     world := [lit "postgres"; lit "shop"];
     calls := [] |}.

Definition query_body (q : pystr) : body :=
  JsonBody (PDict [(lit "query", PStr q)]).

Definition name_body (n : pystr) : body :=
  JsonBody (PDict [(lit "name", PStr n)]).

End Demo.

(* ================================================================= *)
(** ** The process over its lifetime *)

(** Line 13: [_current_db = os.getenv("DB_NAME") or "postgres"], with the
    variable unset ([None]) or set to a string. *)
Definition initial_current_db (db_name : option pystr) : pystr :=
  match db_name with
  | Some (c :: t) => c :: t
  | _ => lit "postgres"
  end.

(** The process when the module has been loaded. *)
Definition loaded {World} (db_name : option pystr) (w : World)
  : state World :=
  {| _current_db := initial_current_db db_name; world := w; calls := [] |}.

Section Lifetime.

Context {World Obj : Type}.
Variable py : runtime World Obj.
Variable db : aws_db_connection World Obj.

(** Requests served one after the other. *)
Fixpoint serve_all (rs : list request) (s : state World)
  : list response * state World :=
  match rs with
  | [] => ([], s)
  | r :: rest =>
      let '(resp, s1) := serve py db r s in
      let '(resps, s2) := serve_all rest s1 in
      (resp :: resps, s2)
  end.

End Lifetime.

(** Reading UTF-8 back.  The handlers only encode; the decoder says
    what the bytes of the attachment hold. *)
Definition continuation (b : N) : bool := ((128 <=? b) && (b <? 192))%N.

Fixpoint decode_utf8 (bs : list N) : option pystr :=
  match bs with
  | [] => Some []
  | b0 :: r0 =>
      (if b0 <? 128 then option_map (cons b0) (decode_utf8 r0)
       else if b0 <? 192 then None
       else if b0 <? 224 then
         match r0 with
         | b1 :: r1 =>
             if continuation b1
             then option_map (cons ((b0 - 192) * 64 + (b1 - 128)))
                    (decode_utf8 r1)
             else None
         | _ => None
         end
       else if b0 <? 240 then
         match r0 with
         | b1 :: b2 :: r2 =>
             if continuation b1 && continuation b2
             then option_map
                    (cons ((b0 - 224) * 4096 + (b1 - 128) * 64 + (b2 - 128)))
                    (decode_utf8 r2)
             else None
         | _ => None
         end
       else if b0 <? 248 then
         match r0 with
         | b1 :: b2 :: b3 :: r3 =>
             if continuation b1 && continuation b2 && continuation b3
             then option_map
                    (cons ((b0 - 240) * 262144 + (b1 - 128) * 4096
                           + (b2 - 128) * 64 + (b3 - 128)))
                    (decode_utf8 r3)
             else None
         | _ => None
         end
       else None)%N
  end.

(** A string with no whitespace at either end. *)
Definition tight (s : pystr) : Prop :=
  lstrip s = s /\ lstrip (rev s) = rev s.

(** The collaborator call a POST route makes for the value it read. *)
Definition call_for (ep : post_endpoint) (v : pystr) : call :=
  match ep with
  | SqlEndpoint | SqlCsvEndpoint => CallCursorExecute v
  | CreateDatabaseEndpoint => CallCreateDatabase v
  | ConnectEndpoint => CallConnectTo v
  end.

(** A second collaborator, with the failures the first one lacks. *)
Module Faulty.

Definition World : Type := unit.
Definition Obj : Type := Z.

(** A lone surrogate, as a driver that decodes with [surrogateescape]
    can return. *)
Definition broken_text : pystr := [97; 56448; 98]%N.

Definition run_query (q : pystr) : pystr + cursor Obj :=
  if PyStr.eqb q (lit "SELECT raw FROM blobs") then
    inr {| description := Some [(lit "raw", 25%Z)];
           fetchall := inr [[VStr broken_text]];
           rowcount := 1 |}
  else if PyStr.eqb q (lit "SELECT * FROM gone") then
    inr {| description := Some [(lit "id", 23%Z)];
           fetchall := inl (lit "connection already closed");
           rowcount := (-1) |}
  else if PyStr.eqb q (lit "UPDATE notes SET body = NULL") then
    inr {| description := None;
           fetchall := inl (lit "no results to fetch");
           rowcount := 7 |}
  else inl (lit "syntax error at or near ...").

Definition db : aws_db_connection World Obj := {|
  list_databases := fun w => (inl (lit "connection refused"), w);
  create_database := fun name w => (inr tt, w);
  connect_to := fun name w => (inl (lit "database does not exist"), w);
  list_table_schemas := fun schema w => (inr [], w);
  conn_cursor_execute := fun q w => (run_query q, w);
  execute := fun q w => (inl (lit "connection refused"), w)
|}.

Definition py : runtime World Obj := {|
  str := fun z => lit (DecimalString.NilZero.string_of_int (Z.to_int z));
  perf_counter := fun w => (S754_zero false, w);
  elapsed_ms := fun _ _ => S754_zero false
|}.

Definition start : state World := loaded None tt.

End Faulty.

Unset Implicit Arguments.

(** Two steps that recur when the trace of calls is followed: a route
    that made no call, and a route that made one. *)
Ltac no_call := exists []; split; [symmetry; apply app_nil_r | intros ? []].
Ltac one_call :=
  eexists; split; [reflexivity |];
  intros ? [Hin|[]]; inversion Hin; reflexivity.

(** Settles the comparisons a decoder makes on the bytes of one
    character. *)
Ltac decide_byte_tests :=
  repeat match goal with
    | |- context [N.ltb ?a ?b] => destruct (N.ltb_spec a b); try lia
    | |- context [N.leb ?a ?b] => destruct (N.leb_spec a b); try lia
    end.

(* ================================================================= *)
(** ** Strings: facts about [strip] *)

Lemma lstrip_all_space (s : pystr) :
  forallb isspace s = true -> lstrip s = [].
Proof.
  induction s as [|c t IH]; simpl; [reflexivity|].
  intros H. apply andb_prop in H. destruct H as [Hc Ht].
  rewrite Hc. auto.
Qed.

Lemma lstrip_nil_all_space (s : pystr) :
  lstrip s = [] -> forallb isspace s = true.
Proof.
  induction s as [|c t IH]; simpl; [reflexivity|].
  destruct (isspace c); [auto | discriminate].
Qed.

Lemma strip_all_space (s : pystr) :
  forallb isspace s = true -> strip s = [].
Proof.
  intros H. unfold strip, rstrip. rewrite (lstrip_all_space s H). reflexivity.
Qed.

Lemma strip_nil_all_space (s : pystr) :
  strip s = [] -> forallb isspace s = true.
Proof.
  unfold strip, rstrip. intros H.
  apply lstrip_nil_all_space.
  assert (Hr : lstrip (rev (lstrip s)) = []).
  { rewrite <- (rev_involutive (lstrip (rev (lstrip s)))). rewrite H. reflexivity. }
  apply lstrip_nil_all_space in Hr.
  rewrite forallb_forall in Hr.
  assert (Hl : forallb isspace (lstrip s) = true).
  { apply forallb_forall. intros x Hx. apply Hr. apply in_rev in Hx. exact Hx. }
  clear H Hr. induction s as [|c t IH]; simpl in *; [reflexivity|].
  destruct (isspace c) eqn:Hc; [auto|].
  simpl in Hl. rewrite Hc in Hl. discriminate.
Qed.

(** A string that neither starts nor ends with a space is its own strip. *)
Lemma strip_tight (c : char) (m : pystr) (c' : char) :
  isspace c = false -> isspace c' = false ->
  strip [c] = [c] /\ strip (c :: m ++ [c']) = c :: m ++ [c'].
Proof.
  intros Hc Hc'. unfold strip, rstrip. simpl. rewrite Hc. simpl. rewrite Hc.
  split; [reflexivity|].
  rewrite rev_app_distr. simpl. rewrite Hc'. simpl.
  rewrite rev_app_distr, rev_involutive. reflexivity.
Qed.

Lemma lstrip_head (s : pystr) (c : char) (m : pystr) :
  lstrip s = c :: m -> isspace c = false.
Proof.
  induction s as [|x t IH]; simpl; [discriminate|].
  destruct (isspace x) eqn:Hx; [exact IH|].
  intros H. inversion H; subst. exact Hx.
Qed.

Lemma lstrip_idempotent (s : pystr) : lstrip (lstrip s) = lstrip s.
Proof.
  destruct (lstrip s) as [|c m] eqn:H; [reflexivity|].
  simpl. rewrite (lstrip_head s c m H). reflexivity.
Qed.

Lemma lstrip_before_nonspace (l : pystr) (c : char) (r : pystr) :
  isspace c = false -> lstrip (l ++ c :: r) = lstrip l ++ c :: r.
Proof.
  intros Hc. induction l as [|x t IH]; simpl.
  - rewrite Hc. reflexivity.
  - destruct (isspace x); [exact IH | reflexivity].
Qed.

Lemma rstrip_cons_nonspace (c : char) (m : pystr) :
  isspace c = false -> rstrip (c :: m) = c :: rstrip m.
Proof.
  intros Hc. unfold rstrip. simpl.
  rewrite (lstrip_before_nonspace (rev m) c [] Hc).
  rewrite rev_app_distr. reflexivity.
Qed.

Lemma rstrip_idempotent (s : pystr) : rstrip (rstrip s) = rstrip s.
Proof.
  unfold rstrip. rewrite rev_involutive, lstrip_idempotent. reflexivity.
Qed.

Lemma strip_idempotent (s : pystr) : strip (strip s) = strip s.
Proof.
  unfold strip. destruct (lstrip s) as [|c m] eqn:H; [reflexivity|].
  pose proof (lstrip_head s c m H) as Hc.
  rewrite (rstrip_cons_nonspace c m Hc). simpl. rewrite Hc.
  rewrite (rstrip_cons_nonspace c (rstrip m) Hc), rstrip_idempotent.
  reflexivity.
Qed.

(** [strip] only takes whitespace away, and only at the two ends. *)
Lemma lstrip_decompose (s : pystr) :
  exists pre, s = pre ++ lstrip s /\ forallb isspace pre = true.
Proof.
  induction s as [|c t [pre [IH1 IH2]]]; simpl.
  - exists []. auto.
  - destruct (isspace c) eqn:Hc.
    + exists (c :: pre). simpl. rewrite Hc, IH2. split; [congruence | reflexivity].
    + exists []. auto.
Qed.

Lemma strip_decompose (s : pystr) :
  exists pre post,
    s = pre ++ strip s ++ post /\
    forallb isspace pre = true /\ forallb isspace post = true.
Proof.
  destruct (lstrip_decompose s) as [pre [H1 H2]].
  destruct (lstrip_decompose (rev (lstrip s))) as [tsop [H3 H4]].
  exists pre, (rev tsop). split; [|split; [exact H2|]].
  - unfold strip, rstrip. rewrite <- rev_app_distr, <- H3, rev_involutive.
    exact H1.
  - apply forallb_forall. intros x Hx. apply in_rev in Hx.
    rewrite forallb_forall in H4. auto.
Qed.

(* ================================================================= *)
(** ** The truncation [clip] *)

Section ClipFacts.

Context {World Obj : Type}.
Variable py : runtime World Obj.

Lemma clip_short (v : cell Obj) :
  length (cell_text py v) <= 2000 -> clip py v = cell_text py v.
Proof.
  intros H. unfold clip.
  destruct (Nat.leb_spec (length (cell_text py v)) 2000); [reflexivity | lia].
Qed.

Lemma clip_long (v : cell Obj) :
  2000 < length (cell_text py v) ->
  clip py v = firstn 2000 (cell_text py v) ++ [ellipsis].
Proof.
  intros H. unfold clip.
  destruct (Nat.leb_spec (length (cell_text py v)) 2000); [lia | reflexivity].
Qed.

Lemma clip_long_length (v : cell Obj) :
  2000 < length (cell_text py v) -> length (clip py v) = 2001.
Proof.
  intros H. rewrite (clip_long v H).
  rewrite length_app, length_firstn. simpl length. lia.
Qed.


(** [clip] of a string that [clip] produced gives it back. *)
Lemma clip_fixes_clipped (v : cell Obj) :
  clip py (VStr (clip py v)) = clip py v.
Proof.
  destruct (Nat.le_gt_cases (length (cell_text py v)) 2000) as [H|H].
  - rewrite (clip_short v H).
    exact (clip_short (VStr (cell_text py v)) H).
  - pose proof (clip_long_length v H) as Hlen.
    rewrite (clip_long (VStr (clip py v))).
    2:{ change (cell_text py (VStr (clip py v))) with (clip py v). lia. }
    change (cell_text py (VStr (clip py v))) with (clip py v).
    rewrite (clip_long v H).
    rewrite firstn_app, firstn_firstn, Nat.min_id.
    replace (2000 - length (firstn 2000 (cell_text py v))) with 0
      by (rewrite length_firstn; lia).
    rewrite firstn_O, app_nil_r. reflexivity.
Qed.

(** C9: [clip] returns a string of at most 2000 characters as it is, and
    clipping twice is the same as clipping once. *)
Theorem clip_identity_on_short_and_idempotent (s : pystr) :
  (length s <= 2000 -> clip py (VStr s) = s) /\
  clip py (VStr (clip py (VStr s))) = clip py (VStr s).
Proof.
  split.
  - intros H. apply (clip_short (VStr s)). exact H.
  - apply clip_fixes_clipped.
Qed.

End ClipFacts.

Lemma clip_identity_on_short_and_idempotent_witness :
  clip Demo.py (VStr (lit "SELECT 1")) = lit "SELECT 1" /\
  clip Demo.py (VStr (clip Demo.py (VStr Demo.long_text)))
  = clip Demo.py (VStr Demo.long_text).
Proof.
  split.
  - apply (proj1 (clip_identity_on_short_and_idempotent Demo.py (lit "SELECT 1"))).
    simpl. lia.
  - apply (proj2 (clip_identity_on_short_and_idempotent Demo.py Demo.long_text)).
Defined.

(* ================================================================= *)
(** ** Reading the request, and [_exec] *)

Section GatewayFacts.

Context {World Obj : Type}.
Variable py : runtime World Obj.
Variable db : aws_db_connection World Obj.

(** Reading a field of the body touches neither the state nor the
    collaborator. *)
Lemma stripped_field_state (b : body) (f : pystr) (s : state World) :
  snd (stripped_field b f s) = s.
Proof.
  unfold stripped_field, payload_get, value_strip, bind, ret, raise.
  destruct (py_or (get_json_silent b) (PDict [])); try reflexivity.
  destruct (py_or _ _); reflexivity.
Qed.

Lemma payload_of_dict (d : list (pystr * pyval)) :
  d <> [] -> py_or (get_json_silent (JsonBody (PDict d))) (PDict []) = PDict d.
Proof. destruct d; [congruence | reflexivity]. Qed.

Lemma stripped_field_string (d : list (pystr * pyval)) (f v : pystr)
    (s : state World) :
  dict_get d f = Some (PStr v) ->
  stripped_field (JsonBody (PDict d)) f s = (inr (strip v), s).
Proof.
  intros H. unfold stripped_field.
  rewrite payload_of_dict by (intros ->; discriminate).
  unfold payload_get, value_strip, bind, ret. rewrite H.
  destruct v; reflexivity.
Qed.

Lemma stripped_field_absent (b : body) (f : pystr) (s : state World) :
  (b = NoBody \/ (exists raw, b = NotJson raw) \/
   exists d, b = JsonBody (PDict d) /\
             (dict_get d f = None \/ dict_get d f = Some PNone)) ->
  stripped_field b f s = (inr [], s).
Proof.
  intros [->|[[raw ->]|[d [-> H]]]]; try reflexivity.
  destruct d as [|kv d']; [reflexivity|].
  unfold stripped_field.
  rewrite payload_of_dict by discriminate.
  unfold payload_get, value_strip, bind, ret.
  destruct H as [H|H]; rewrite H; reflexivity.
Qed.

Lemma exec_rejects (q : pystr) (s : state World) :
  strip q = [] ->
  _exec py db q s = (inl (BadRequest (lit "No query provided.")), s).
Proof.
  intros H. unfold _exec. rewrite H. cbn [truthy].
  rewrite orb_true_r. reflexivity.
Qed.


Lemma exec_runs (q : pystr) (s : state World) :
  strip q <> [] -> _exec py db q s = exec_outcome py db q s.
Proof.
  intros H. unfold _exec, exec_outcome.
  assert (Hq : q <> []) by (intros ->; apply H; reflexivity).
  destruct q as [|c q']; [congruence|].
  destruct (strip (c :: q')) as [|c2 t2] eqn:Hs; [congruence|].
  cbn [truthy negb orb].
  unfold bind, now, invoke, ret, raise. cbn [world _current_db calls].
  destruct (perf_counter py (world s)) as [t0 w1].
  cbn [world _current_db calls].
  destruct (cursor_block db (c :: q') w1) as [[e|[[cols rows] rc]] w2];
    cbn [world _current_db calls returned]; [reflexivity|].
  destruct (perf_counter py w2) as [t1 w3]. reflexivity.
Qed.

(** [_exec] never touches [_current_db], and makes at most the one call
    [cur.execute(q)] with the string it was given. *)
Lemma exec_inv (q : pystr) (s s' : state World) r :
  _exec py db q s = (r, s') ->
  _current_db s' = _current_db s /\
  ((strip q = [] /\ s' = s
    /\ r = inl (BadRequest (lit "No query provided."))) \/
   (strip q <> [] /\
    (exists e, r = inl (BadRequest e)
               /\ calls s' = calls s ++ [(CallCursorExecute q, false)]) \/
   (strip q <> [] /\
    (exists v, r = inr v
               /\ calls s' = calls s ++ [(CallCursorExecute q, true)])))).
Proof.
  intros H.
  destruct (list_eq_dec N.eq_dec (strip q) []) as [He|Hne].
  - rewrite (exec_rejects q s He) in H. inversion H; subst. auto.
  - rewrite (exec_runs q s Hne) in H. unfold exec_outcome in H.
    destruct (perf_counter py (world s)) as [t0 w1].
    destruct (cursor_block db q w1) as [[e|[[cols rows] rc]] w2].
    + inversion H; subst. cbn. split; [reflexivity|].
      right. left. split; [exact Hne|]. eauto.
    + destruct (perf_counter py w2) as [t1 w3].
      inversion H; subst. cbn. split; [reflexivity|].
      right. right. split; [exact Hne|]. eauto.
Qed.

End GatewayFacts.

(* ================================================================= *)
(** ** [/api/sql]: the JSON table *)

Section SqlJson.

Context {World Obj : Type}.
Variable py : runtime World Obj.
Variable db : aws_db_connection World Obj.


(** A request to [/api/sql] answered with status 200 ran [_exec] on the
    stripped query, and its body is the table [_exec] returned with every
    cell clipped. *)
Lemma api_sql_success (b : body) (s s' : state World) (resp : response) :
  serve py db (PostSql b) s = (resp, s') ->
  status_of resp = 200%Z ->
  exists query cols rows rowcount duration_ms,
    stripped_field b (lit "query") s = (inr query, s) /\
    _exec py db query s = (inr (cols, rows, rowcount, duration_ms), s') /\
    resp = Json 200 (sql_json py cols rows rowcount duration_ms).
Proof.
  unfold serve, handler, api_sql, bind. intros H Hst.
  pose proof (stripped_field_state b (lit "query") s) as Hs.
  destruct (stripped_field b (lit "query") s) as [[e|query] s0].
  - destruct e; inversion H; subst; discriminate.
  - cbn in Hs. subst s0.
    destruct (_exec py db query s) as [[e|[[[cols rows] rc] d]] s1] eqn:He.
    + destruct e; inversion H; subst; discriminate.
    + unfold ret in H. inversion H; subst.
      exists query, cols, rows, rc, d. auto.
Qed.


(** C10: in a successful [/api/sql] response a cell that is [None] is
    the empty string: neither the text [None] nor a JSON null. *)
Theorem api_sql_null_cell_empty_string (b : body) (s s' : state World)
    (resp : response) :
  serve py db (PostSql b) s = (resp, s') ->
  status_of resp = 200%Z ->
  exists query cols rows rowcount duration_ms (render : cell Obj -> pyval),
    _exec py db query s = (inr (cols, rows, rowcount, duration_ms), s') /\
    resp =
      Json 200
        (PDict [(lit "columns", PList (map PStr cols));
                (lit "rows", PList (map (fun r => PList (map render r)) rows));
                (lit "rowcount", PInt rowcount);
                (lit "duration_ms", PFloat duration_ms)]) /\
    render VNone = PStr [] /\
    render VNone <> PStr (lit "None") /\
    render VNone <> PNone.
Proof.
  intros H Hst.
  destruct (api_sql_success b s s' resp H Hst)
    as (query & cols & rows & rc & d & _ & He & Hr).
  exists query, cols, rows, rc, d, (fun c => PStr (clip py c)).
  split; [exact He|]. split; [exact Hr|].
  repeat split; discriminate.
Qed.

End SqlJson.


Lemma api_sql_null_cell_empty_string_witness :
  let r := serve Demo.py Demo.db
             (PostSql (Demo.query_body (lit "SELECT * FROM notes")))
             Demo.start in
  exists query cols rows rowcount duration_ms
         (render : cell Demo.Obj -> pyval),
    _exec Demo.py Demo.db query Demo.start
    = (inr (cols, rows, rowcount, duration_ms), snd r) /\
    fst r =
      Json 200
        (PDict [(lit "columns", PList (map PStr cols));
                (lit "rows", PList (map (fun r => PList (map render r)) rows));
                (lit "rowcount", PInt rowcount);
                (lit "duration_ms", PFloat duration_ms)]) /\
    render VNone = PStr [] /\
    render VNone <> PStr (lit "None") /\
    render VNone <> PNone.
Proof.
  intros r.
  apply (@api_sql_null_cell_empty_string _ _ Demo.py Demo.db
           (Demo.query_body (lit "SELECT * FROM notes")) Demo.start _ _).
  - apply surjective_pairing.
  - vm_compute. reflexivity.
Defined.

(* ================================================================= *)
(** ** Input validation of the four POST endpoints *)


Section Validation.

Context {World Obj : Type}.
Variable py : runtime World Obj.
Variable db : aws_db_connection World Obj.

(** A POST whose field reads as the empty string is answered 400 with
    the state as it was: no collaborator call, no clock reading. *)
Lemma empty_field_rejected (ep : post_endpoint) (b : body)
    (s : state World) :
  stripped_field b (expected_field ep) s = (inr [], s) ->
  serve py db (post ep b) s = (ErrorPage 400 (rejection ep), s).
Proof.
  intros H.
  destruct ep; unfold serve, post, handler, api_sql, api_sql_csv,
    api_create_database, api_connect_to, bind;
    cbn [expected_field] in H; rewrite H;
    try rewrite (exec_rejects py db [] s eq_refl); reflexivity.
Qed.

(** C4: a request whose query (for [/api/sql] and [/api/sql/csv]) or
    name (for create-database and connect) is empty or only whitespace is
    answered with status 400 and leaves the state, and with it the trace
    of collaborator calls and the world behind the connection, as it
    was: the collaborator is not invoked. *)
Theorem blank_field_rejected_without_collaborator (ep : post_endpoint)
    (d : list (pystr * pyval)) (v : pystr) (s : state World) :
  dict_get d (expected_field ep) = Some (PStr v) ->
  forallb isspace v = true ->
  serve py db (post ep (JsonBody (PDict d))) s
  = (ErrorPage 400 (rejection ep), s) /\
  status_of (fst (serve py db (post ep (JsonBody (PDict d))) s)) = 400%Z /\
  calls (snd (serve py db (post ep (JsonBody (PDict d))) s)) = calls s /\
  world (snd (serve py db (post ep (JsonBody (PDict d))) s)) = world s.
Proof.
  intros Hd Hv.
  assert (H : serve py db (post ep (JsonBody (PDict d))) s
              = (ErrorPage 400 (rejection ep), s)).
  { apply empty_field_rejected.
    rewrite (stripped_field_string d _ v s Hd).
    rewrite (strip_all_space v Hv). reflexivity. }
  rewrite H. auto.
Qed.

(** A JSON body that is falsy gives way to the empty object. *)
Lemma stripped_field_falsy_body (v : pyval) (f : pystr) (s : state World) :
  truthy v = false -> stripped_field (JsonBody v) f s = (inr [], s).
Proof.
  intros Hv. unfold stripped_field, py_or. cbn [get_json_silent].
  rewrite Hv. reflexivity.
Qed.

(** C8, as the code has it: a POST whose body is absent, is not JSON, is a
    falsy JSON value ([null], [false], [0], an empty string, list or
    object), or is an object in which the expected field is missing or
    null, is served exactly as the same request with the field set to the
    empty string: status 400, state unchanged, no collaborator call. *)
Theorem missing_field_served_as_empty_string (ep : post_endpoint)
    (b : body) (s : state World) :
  (b = NoBody \/ (exists raw, b = NotJson raw) \/
   (exists v, b = JsonBody v /\ truthy v = false) \/
   exists d, b = JsonBody (PDict d) /\
             (dict_get d (expected_field ep) = None \/
              dict_get d (expected_field ep) = Some PNone)) ->
  serve py db (post ep b) s
  = serve py db (post ep (JsonBody (PDict [(expected_field ep, PStr [])]))) s
  /\
  serve py db (post ep b) s = (ErrorPage 400 (rejection ep), s) /\
  calls (snd (serve py db (post ep b) s)) = calls s.
Proof.
  intros Hb.
  assert (H : serve py db (post ep b) s = (ErrorPage 400 (rejection ep), s)).
  { apply empty_field_rejected.
    destruct Hb as [Hb|[Hb|[(v & -> & Hv)|Hb]]].
    - apply stripped_field_absent. auto.
    - apply stripped_field_absent. auto.
    - apply stripped_field_falsy_body. exact Hv.
    - apply stripped_field_absent. auto. }
  rewrite H. split; [|auto].
  symmetry. apply empty_field_rejected. destruct ep; reflexivity.
Qed.

(** A JSON body that is not an object and not falsy has no [get]: the
    [AttributeError] leaves the handler and Flask answers 500. *)
Remark non_object_body_is_server_error (ep : post_endpoint)
    (v : pyval) (s : state World) :
  truthy v = true -> (forall d, v <> PDict d) ->
  serve py db (post ep (JsonBody v)) s
  = (ErrorPage 500 internal_server_error, s).
Proof.
  intros Ht Hd.
  destruct ep; unfold serve, post, handler, api_sql, api_sql_csv,
    api_create_database, api_connect_to, stripped_field, bind, py_or;
    cbn [get_json_silent]; rewrite Ht;
    (destruct v; try reflexivity; exfalso; eapply Hd; reflexivity).
Qed.

End Validation.

Lemma blank_field_rejected_without_collaborator_witness :
  let r := serve Demo.py Demo.db
             (post SqlCsvEndpoint (Demo.query_body (lit "   ")))
             Demo.start in
  r = (ErrorPage 400 (rejection SqlCsvEndpoint), Demo.start) /\
  status_of (fst r) = 400%Z /\
  calls (snd r) = calls Demo.start /\
  world (snd r) = world Demo.start.
Proof.
  apply (blank_field_rejected_without_collaborator Demo.py Demo.db
           SqlCsvEndpoint [(lit "query", PStr (lit "   "))] (lit "   ")
           Demo.start); reflexivity.
Defined.

Lemma missing_field_served_as_empty_string_witness :
  let b := JsonBody (PDict [(lit "schema", PStr (lit "public"));
                            (lit "name", PNone)]) in
  serve Demo.py Demo.db (post ConnectEndpoint b) Demo.start
  = serve Demo.py Demo.db
      (post ConnectEndpoint
         (JsonBody (PDict [(expected_field ConnectEndpoint, PStr [])])))
      Demo.start /\
  serve Demo.py Demo.db (post ConnectEndpoint b) Demo.start
  = (ErrorPage 400 (rejection ConnectEndpoint), Demo.start) /\
  calls (snd (serve Demo.py Demo.db (post ConnectEndpoint b) Demo.start))
  = calls Demo.start.
Proof.
  apply (missing_field_served_as_empty_string Demo.py Demo.db ConnectEndpoint).
  right. right. right. eexists. split; [reflexivity|]. right. reflexivity.
Defined.

(** C8 as stated fails: the JSON body [[1]] is valid and has no field
    [query], yet it is not served as the request with an empty query: the
    answer is 500, not 400. *)
Lemma truthy_non_object_body_counterexample :
  let b := JsonBody (PList [PInt 1]) in
  let r := serve Demo.py Demo.db (post SqlEndpoint b) Demo.start in
  status_of (fst r) = 500%Z /\
  status_of (fst (serve Demo.py Demo.db
                    (post SqlEndpoint
                       (JsonBody (PDict [(expected_field SqlEndpoint,
                                          PStr [])])))
                    Demo.start)) = 400%Z /\
  r <> serve Demo.py Demo.db
         (post SqlEndpoint
            (JsonBody (PDict [(expected_field SqlEndpoint, PStr [])])))
         Demo.start.
Proof.
  split; [reflexivity|]. split; [reflexivity|].
  intros H. apply (f_equal (fun p => status_of (fst p))) in H.
  vm_compute in H. discriminate.
Qed.

(* ================================================================= *)
(** ** What reaches the collaborator *)

Section Forwarding.

Context {World Obj : Type}.
Variable py : runtime World Obj.
Variable db : aws_db_connection World Obj.

(** The two SQL endpoints end in the state [_exec] left. *)
Lemma sql_endpoints_state (ep : post_endpoint) (b : body) (query : pystr)
    (s : state World) :
  ep = SqlEndpoint \/ ep = SqlCsvEndpoint ->
  stripped_field b (lit "query") s = (inr query, s) ->
  snd (serve py db (post ep b) s) = snd (_exec py db query s).
Proof.
  intros [->| ->] H;
    unfold serve, post, handler, api_sql, api_sql_csv, bind; rewrite H;
    destruct (_exec py db query s) as [[e|[[[cols rows] rc] dur]] s1];
    try (destruct e; reflexivity); try reflexivity.
  unfold raise, ret.
  destruct (encode_utf8 (csv_text py cols rows)); reflexivity.
Qed.

(** C3, as the code has it: the string handed to [cur.execute] is the
    query of the request with the whitespace at its two ends removed and
    nothing else changed; it is the one collaborator call of the
    request. *)
Theorem stripped_query_forwarded (ep : post_endpoint)
    (d : list (pystr * pyval)) (q : pystr) (s : state World) :
  ep = SqlEndpoint \/ ep = SqlCsvEndpoint ->
  dict_get d (lit "query") = Some (PStr q) ->
  strip q <> [] ->
  (exists ok,
     calls (snd (serve py db (post ep (JsonBody (PDict d))) s))
     = calls s ++ [(CallCursorExecute (strip q), ok)]) /\
  (exists pre post,
     q = pre ++ strip q ++ post /\
     forallb isspace pre = true /\ forallb isspace post = true).
Proof.
  intros Hep Hd Hq. split; [|apply strip_decompose].
  rewrite (sql_endpoints_state ep _ (strip q) s Hep
             (stripped_field_string d _ q s Hd)).
  destruct (_exec py db (strip q) s) as [r s1] eqn:He.
  destruct (exec_inv py db _ _ _ _ He) as [_ [H|[H|H]]].
  - rewrite strip_idempotent in H. destruct H as [H _]. contradiction.
  - destruct H as [_ [e [_ Hc]]]. exists false. exact Hc.
  - destruct H as [_ [v [_ Hc]]]. exists true. exact Hc.
Qed.

(** [_exec] itself hands over the string it is given. *)
Lemma exec_forwards_its_argument (query : pystr) (s : state World) :
  strip query <> [] ->
  exists ok,
    calls (snd (_exec py db query s))
    = calls s ++ [(CallCursorExecute query, ok)].
Proof.
  intros Hq. destruct (_exec py db query s) as [r s1] eqn:He.
  destruct (exec_inv py db _ _ _ _ He) as [_ [H|[H|H]]].
  - destruct H as [H _]. contradiction.
  - destruct H as [_ [e [_ Hc]]]. exists false. exact Hc.
  - destruct H as [_ [v [_ Hc]]]. exists true. exact Hc.
Qed.

End Forwarding.

(** C3 as stated fails: the query [" SELECT 1"] is accepted, and the
    collaborator is handed ["SELECT 1"], which is not the raw input. *)
Lemma raw_query_forwarded_counterexample :
  let q := lit " SELECT 1" in
  let r := serve Demo.py Demo.db (PostSql (Demo.query_body q)) Demo.start in
  status_of (fst r) = 200%Z /\
  calls (snd r) = [(CallCursorExecute (lit "SELECT 1"), true)] /\
  ~ In (CallCursorExecute q) (map fst (calls (snd r))).
Proof.
  vm_compute. repeat split. intros [H|[]]. discriminate.
Qed.

Lemma stripped_query_forwarded_witness :
  let q := lit "  SELECT 1 " in
  (exists ok,
     calls (snd (serve Demo.py Demo.db
                   (post SqlEndpoint (Demo.query_body q)) Demo.start))
     = calls Demo.start ++ [(CallCursorExecute (strip q), ok)]) /\
  (exists pre post,
     q = pre ++ strip q ++ post /\
     forallb isspace pre = true /\ forallb isspace post = true).
Proof.
  apply (stripped_query_forwarded Demo.py Demo.db SqlEndpoint
           [(lit "query", PStr (lit "  SELECT 1 "))] (lit "  SELECT 1 ")
           Demo.start).
  - left. reflexivity.
  - reflexivity.
  - vm_compute. discriminate.
Defined.

(* ================================================================= *)
(** ** The current database selection *)

Section CurrentDb.

Context {World Obj : Type}.
Variable py : runtime World Obj.
Variable db : aws_db_connection World Obj.

(** A field that reads as a non-empty string was a string in an object,
    and what is read is that string stripped. *)
Lemma value_strip_inv (v : pyval) (name : pystr) (s s0 : state World) :
  value_strip (py_or v (PStr [])) s = (inr name, s0) ->
  name <> [] ->
  exists raw, v = PStr raw /\ name = strip raw.
Proof.
  intros H Hn.
  destruct v as [|bb|z|fl|raw|l|d]; unfold py_or in H; cbn [truthy] in H.
  - cbn in H. inversion H; subst. congruence.
  - destruct bb; cbn in H; inversion H; subst; congruence.
  - destruct (negb (z =? 0)%Z); cbn in H; inversion H; subst; congruence.
  - destruct fl; cbn in H; inversion H; subst; congruence.
  - destruct raw as [|c t].
    + cbn in H. inversion H; subst. congruence.
    + unfold value_strip, ret in H. inversion H; subst.
      exists (c :: t). auto.
  - destruct l; cbn in H; inversion H; subst; congruence.
  - destruct d; cbn in H; inversion H; subst; congruence.
Qed.

Lemma stripped_field_inv (b : body) (f name : pystr) (s s0 : state World) :
  stripped_field b f s = (inr name, s0) ->
  name <> [] ->
  exists d raw,
    b = JsonBody (PDict d) /\ dict_get d f = Some (PStr raw) /\
    name = strip raw.
Proof.
  unfold stripped_field. intros H Hn.
  destruct (py_or (get_json_silent b) (PDict [])) as [|bb|z|fl|str|l|d] eqn:Hp;
    try (cbn in H; discriminate).
  unfold payload_get, bind, ret in H.
  destruct (value_strip_inv _ _ _ _ H Hn) as [raw [Hv ->]].
  destruct d as [|kv d']; [discriminate|].
  exists (kv :: d'), raw.
  destruct (dict_get (kv :: d') f) as [v|] eqn:Hg; [|discriminate].
  subst v. split; [|auto].
  destruct b as [|r|v]; try (cbn in Hp; discriminate).
  cbn [get_json_silent] in Hp. unfold py_or in Hp.
  destruct (truthy v); [congruence | discriminate].
Qed.

(** What [api_connect_to] does once the name is read. *)
Lemma connect_named (b : body) (name : pystr) (s : state World) :
  stripped_field b (lit "name") s = (inr name, s) ->
  name <> [] ->
  serve py db (PostConnect b) s =
  match connect_to db name (world s) with
  | (inl e, w') =>
      (Json 400 (PDict [(lit "error", PStr e)]),
       {| _current_db := _current_db s; world := w';
          calls := calls s ++ [(CallConnectTo name, false)] |})
  | (inr _, w') =>
      (Json 200 (PDict [(lit "ok", PBool true); (lit "current", PStr name)]),
       {| _current_db := name; world := w';
          calls := calls s ++ [(CallConnectTo name, true)] |})
  end.
Proof.
  intros H Hn. unfold serve, handler, api_connect_to, bind. rewrite H.
  destruct name as [|c t]; [congruence|]. cbn [truthy negb].
  unfold invoke.
  destruct (connect_to db (c :: t) (world s)) as [[e|u] w']; reflexivity.
Qed.

Lemma sql_endpoints_current_db (ep : post_endpoint) (b : body)
    (s : state World) :
  ep = SqlEndpoint \/ ep = SqlCsvEndpoint ->
  _current_db (snd (serve py db (post ep b) s)) = _current_db s.
Proof.
  intros Hep.
  pose proof (stripped_field_state b (lit "query") s) as Hs.
  destruct (stripped_field b (lit "query") s) as [[e|query] s0] eqn:Hf;
    cbn in Hs; subst s0.
  - destruct Hep as [->| ->];
      unfold serve, post, handler, api_sql, api_sql_csv, bind; rewrite Hf;
      destruct e; reflexivity.
  - rewrite (sql_endpoints_state py db ep b query s Hep Hf).
    destruct (_exec py db query s) as [r s1] eqn:He.
    apply (exec_inv py db _ _ _ _ He).
Qed.

(** Every route but [/api/connect] leaves [_current_db] as it was. *)
Lemma other_routes_keep_current_db (r : request) (s : state World) :
  (forall b, r <> PostConnect b) ->
  _current_db (snd (serve py db r s)) = _current_db s.
Proof.
  intros Hr. destruct r as [| |b|b|arg|b|b|].
  - reflexivity.
  - unfold serve, handler, api_list_databases, bind, invoke.
    destruct (list_databases db (world s)) as [[e|names] w]; reflexivity.
  - unfold serve, handler, api_create_database, bind.
    pose proof (stripped_field_state b (lit "name") s) as Hs.
    destruct (stripped_field b (lit "name") s) as [[e|name] s0];
      cbn in Hs; subst s0.
    + destruct e; reflexivity.
    + destruct name as [|c t]; [reflexivity|]. cbn [truthy negb].
      unfold invoke.
      destruct (create_database db (c :: t) (world s)) as [[e|u] w];
        reflexivity.
  - exfalso. apply (Hr b). reflexivity.
  - unfold serve, handler, api_table_schemas, bind, invoke.
    destruct (list_table_schemas db _ (world s)) as [[e|m] w]; reflexivity.
  - apply (sql_endpoints_current_db SqlEndpoint). auto.
  - apply (sql_endpoints_current_db SqlCsvEndpoint). auto.
  - unfold serve, handler, healthz, bind, invoke.
    destruct (execute db _ (world s)) as [[e|u] w]; reflexivity.
Qed.

(** C6: serving a request either leaves [_current_db] as it was, or the
    request is a connect whose collaborator call returned, and then
    [_current_db] is the stripped requested name and the answer is
    [{ok: true, current: name}]; a connect whose collaborator call raised
    answers with the error and leaves [_current_db] as it was. *)
Theorem current_db_set_only_by_successful_connect (r : request)
    (s : state World) :
  ((exists d raw w',
      r = PostConnect (JsonBody (PDict d)) /\
      dict_get d (lit "name") = Some (PStr raw) /\
      strip raw <> [] /\
      connect_to db (strip raw) (world s) = (inr tt, w') /\
      _current_db (snd (serve py db r s)) = strip raw /\
      fst (serve py db r s)
      = Json 200 (PDict [(lit "ok", PBool true);
                         (lit "current", PStr (strip raw))]))
   \/ _current_db (snd (serve py db r s)) = _current_db s) /\
  (forall d raw,
     r = PostConnect (JsonBody (PDict d)) ->
     dict_get d (lit "name") = Some (PStr raw) ->
     strip raw <> [] ->
     match connect_to db (strip raw) (world s) with
     | (inl e, _) =>
         fst (serve py db r s) = Json 400 (PDict [(lit "error", PStr e)]) /\
         _current_db (snd (serve py db r s)) = _current_db s
     | (inr _, _) =>
         fst (serve py db r s)
         = Json 200 (PDict [(lit "ok", PBool true);
                            (lit "current", PStr (strip raw))]) /\
         _current_db (snd (serve py db r s)) = strip raw
     end).
Proof.
  split.
  - destruct r as [| |b|b|arg|b|b|];
      try (right; apply other_routes_keep_current_db; intros b0; discriminate).
    pose proof (stripped_field_state b (lit "name") s) as Hs.
    destruct (stripped_field b (lit "name") s) as [[e|name] s0] eqn:Hf;
      cbn in Hs; subst s0.
    + right. unfold serve, handler, api_connect_to, bind. rewrite Hf.
      destruct e; reflexivity.
    + destruct name as [|c t].
      * right. unfold serve, handler, api_connect_to, bind. rewrite Hf.
        reflexivity.
      * assert (Hn : c :: t <> []) by discriminate.
        destruct (stripped_field_inv b _ _ s s Hf Hn) as (d & raw & -> & Hd & Hr).
        rewrite (connect_named _ _ s Hf Hn).
        destruct (connect_to db (c :: t) (world s)) as [[e|[]] w'] eqn:Hc.
        -- right. reflexivity.
        -- left. exists d, raw, w'. rewrite <- Hr.
           repeat split; auto.
  - intros d raw -> Hd Hn.
    rewrite (connect_named _ _ s (stripped_field_string d _ raw s Hd) Hn).
    destruct (connect_to db (strip raw) (world s)) as [[e|u] w']; auto.
Qed.

End CurrentDb.

Lemma current_db_set_only_by_successful_connect_witness :
  let r := PostConnect (Demo.name_body (lit " shop ")) in
  fst (serve Demo.py Demo.db r Demo.start)
  = Json 200 (PDict [(lit "ok", PBool true); (lit "current", PStr (lit "shop"))])
  /\ _current_db (snd (serve Demo.py Demo.db r Demo.start)) = lit "shop".
Proof.
  intros r.
  apply (proj2 (current_db_set_only_by_successful_connect Demo.py Demo.db
                  r Demo.start)
           [(lit "name", PStr (lit " shop "))] (lit " shop ")).
  - reflexivity.
  - reflexivity.
  - vm_compute. discriminate.
Defined.

(* ================================================================= *)
(** ** Collaborator failures and the status of the answer *)


Section FailureStatus.

Context {World Obj : Type}.
Variable py : runtime World Obj.
Variable db : aws_db_connection World Obj.

Lemma calls_during_app (s s' : state World) (new : list (call * bool)) :
  calls s' = calls s ++ new -> calls_during s s' = new.
Proof.
  intros H. unfold calls_during. rewrite H.
  rewrite skipn_app, skipn_all, Nat.sub_diag. reflexivity.
Qed.

Lemma sql_endpoints_trace (ep : post_endpoint) (b : body) (s : state World) :
  ep = SqlEndpoint \/ ep = SqlCsvEndpoint ->
  exists new,
    calls (snd (serve py db (post ep b) s)) = calls s ++ new /\
    forall c, In (c, false) new ->
              status_of (fst (serve py db (post ep b) s)) = 400%Z.
Proof.
  intros Hep.
  pose proof (stripped_field_state b (lit "query") s) as Hs.
  destruct (stripped_field b (lit "query") s) as [[e|query] s0] eqn:Hf;
    cbn in Hs; subst s0.
  - destruct Hep as [->| ->];
      unfold serve, post, handler, api_sql, api_sql_csv, bind; rewrite Hf;
      destruct e; cbn [fst snd]; no_call.
  - rewrite (sql_endpoints_state py db ep b query s Hep Hf).
    destruct (_exec py db query s) as [r s1] eqn:He.
    destruct (exec_inv py db _ _ _ _ He) as [_ [H|[H|H]]].
    + destruct H as (_ & -> & _). cbn [snd]. no_call.
    + destruct H as (_ & e & -> & Hc). cbn [snd].
      exists [(CallCursorExecute query, false)]. split; [exact Hc|].
      intros _ _.
      destruct Hep as [->| ->];
        unfold serve, post, handler, api_sql, api_sql_csv, bind;
        rewrite Hf, He; reflexivity.
    + destruct H as (_ & v & -> & Hc). cbn [snd].
      exists [(CallCursorExecute query, true)]. split; [exact Hc|].
      intros c [Hin|[]]. inversion Hin.
Qed.

(** Every route records the calls it makes after those already made; if
    one of them raised, the answer is 500 on [/healthz] and 400 on every
    other route. *)
Lemma serve_trace (r : request) (s : state World) :
  exists new,
    calls (snd (serve py db r s)) = calls s ++ new /\
    forall c, In (c, false) new ->
              status_of (fst (serve py db r s))
              = if is_healthz r then 500%Z else 400%Z.
Proof.
  destruct r as [| |b|b|arg|b|b|]; cbn [is_healthz].
  - cbn. no_call.
  - unfold serve, handler, api_list_databases, bind, invoke.
    destruct (list_databases db (world s)) as [[e|names] w];
      cbn [fst snd calls returned status_of read_current_db ret]; one_call.
  - unfold serve, handler, api_create_database, bind.
    pose proof (stripped_field_state b (lit "name") s) as Hs.
    destruct (stripped_field b (lit "name") s) as [[e|name] s0];
      cbn in Hs; subst s0.
    + destruct e; cbn [fst snd]; no_call.
    + destruct name as [|c t]; [cbn; no_call|]. cbn [truthy negb].
      unfold invoke.
      destruct (create_database db (c :: t) (world s)) as [[e|u] w];
        cbn [fst snd calls returned status_of ret]; one_call.
  - unfold serve, handler, api_connect_to, bind.
    pose proof (stripped_field_state b (lit "name") s) as Hs.
    destruct (stripped_field b (lit "name") s) as [[e|name] s0];
      cbn in Hs; subst s0.
    + destruct e; cbn [fst snd]; no_call.
    + destruct name as [|c t]; [cbn; no_call|]. cbn [truthy negb].
      unfold invoke.
      destruct (connect_to db (c :: t) (world s)) as [[e|u] w];
        cbn [fst snd calls returned status_of ret write_current_db
             read_current_db _current_db world]; one_call.
  - unfold serve, handler, api_table_schemas, bind, invoke.
    destruct (list_table_schemas db _ (world s)) as [[e|m] w];
      cbn [fst snd calls returned status_of ret]; one_call.
  - apply (sql_endpoints_trace SqlEndpoint). auto.
  - apply (sql_endpoints_trace SqlCsvEndpoint). auto.
  - unfold serve, handler, healthz, bind, invoke.
    destruct (execute db _ (world s)) as [[e|u] w];
      cbn [fst snd calls returned status_of read_current_db ret]; one_call.
Qed.

(** C7: [/healthz] answers [{ok: true, db: current}] with status 200 when
    the probe returns and [{ok: false, error: message}] with status 500
    when it raises; on every other route a collaborator call that raised
    gives status 400. *)
Theorem healthz_alone_maps_failure_to_500 (s : state World) :
  match execute db (lit "SELECT 1") (world s) with
  | (inr _, _) =>
      fst (serve py db GetHealthz s)
      = Json 200 (PDict [(lit "ok", PBool true);
                         (lit "db", PStr (_current_db s))])
  | (inl e, _) =>
      fst (serve py db GetHealthz s)
      = Json 500 (PDict [(lit "ok", PBool false); (lit "error", PStr e)])
  end /\
  (forall r c,
     In (c, false) (calls_during s (snd (serve py db r s))) ->
     status_of (fst (serve py db r s))
     = if is_healthz r then 500%Z else 400%Z).
Proof.
  split.
  - unfold serve, handler, healthz, bind, invoke.
    destruct (execute db _ (world s)) as [[e|u] w]; reflexivity.
  - intros r c Hin.
    destruct (serve_trace r s) as [new [Hc Hs]].
    rewrite (calls_during_app s _ new Hc) in Hin. eauto.
Qed.

End FailureStatus.

Lemma healthz_alone_maps_failure_to_500_witness :
  let down := {| _current_db := lit "postgres"; world := []; calls := [] |} in
  fst (serve Demo.py Demo.db GetHealthz down)
  = Json 500 (PDict [(lit "ok", PBool false);
                     (lit "error", PStr (lit "connection refused"))]) /\
  status_of (fst (serve Demo.py Demo.db (GetTableSchemas (Some (lit "private")))
                    Demo.start)) = 400%Z.
Proof.
  intros down. split.
  - apply (proj1 (healthz_alone_maps_failure_to_500 Demo.py Demo.db down)).
  - apply (proj2 (healthz_alone_maps_failure_to_500 Demo.py Demo.db
                    Demo.start)
             (GetTableSchemas (Some (lit "private")))
             (CallListTableSchemas (lit "private"))).
    vm_compute. left. reflexivity.
Defined.

(* ================================================================= *)
(** ** Order on strings, and [sorted] *)

Lemma eqb_eq (a b : pystr) : PyStr.eqb a b = true <-> a = b.
Proof.
  unfold PyStr.eqb. destruct (list_eq_dec N.eq_dec a b); split; congruence.
Qed.

Lemma eqb_refl (a : pystr) : PyStr.eqb a a = true.
Proof. apply eqb_eq. reflexivity. Qed.

Lemma eqb_neq (a b : pystr) : PyStr.eqb a b = false <-> a <> b.
Proof.
  unfold PyStr.eqb. destruct (list_eq_dec N.eq_dec a b); split; congruence.
Qed.

Lemma ltb_irrefl (a : pystr) : PyStr.ltb a a = false.
Proof.
  induction a as [|x a IH]; simpl; [reflexivity|].
  rewrite N.ltb_irrefl. exact IH.
Qed.

Lemma ltb_trans (a b c : pystr) :
  PyStr.ltb a b = true -> PyStr.ltb b c = true -> PyStr.ltb a c = true.
Proof.
  revert b c. induction a as [|x a IH]; intros [|y b] [|z c]; simpl;
    try congruence.
  destruct (N.ltb_spec x y), (N.ltb_spec y x), (N.ltb_spec y z),
    (N.ltb_spec z y), (N.ltb_spec x z), (N.ltb_spec z x);
    try congruence; try lia.
  apply IH.
Qed.

Lemma ltb_trichotomy (a b : pystr) :
  PyStr.ltb a b = false -> PyStr.ltb b a = false -> a = b.
Proof.
  revert b. induction a as [|x a IH]; intros [|y b]; simpl;
    try congruence.
  destruct (N.ltb_spec x y), (N.ltb_spec y x); try congruence; try lia.
  intros H1 H2. assert (x = y) by lia. subst y. f_equal. auto.
Qed.

Lemma ltb_asym (a b : pystr) :
  PyStr.ltb a b = true -> PyStr.ltb b a = false.
Proof.
  intros H. destruct (PyStr.ltb b a) eqn:Hba; [|reflexivity].
  pose proof (ltb_trans a b a H Hba) as Haa.
  rewrite ltb_irrefl in Haa. discriminate.
Qed.

(** [a <= b], as [not (b < a)], is transitive. *)
Lemma not_ltb_trans (a b c : pystr) :
  PyStr.ltb b a = false -> PyStr.ltb c b = false -> PyStr.ltb c a = false.
Proof.
  intros Hab Hbc. destruct (PyStr.ltb c a) eqn:Hca; [|reflexivity].
  destruct (PyStr.ltb a b) eqn:Hlt.
  - rewrite (ltb_trans c a b Hca Hlt) in Hbc. discriminate.
  - rewrite <- (ltb_trichotomy a b Hlt Hab) in Hbc. congruence.
Qed.

Section Sorting.

Context {V : Type}.


Lemma insert_by_key_perm (x : pystr * V) (l : list (pystr * V)) :
  Permutation (x :: l) (insert_by_key x l).
Proof.
  induction l as [|y l IH]; simpl; [reflexivity|].
  destruct (PyStr.ltb (fst y) (fst x)); [|reflexivity].
  rewrite perm_swap. apply perm_skip. exact IH.
Qed.

Lemma sorted_by_key_perm (l : list (pystr * V)) :
  Permutation l (sorted_by_key l).
Proof.
  induction l as [|x l IH]; simpl; [reflexivity|].
  rewrite <- insert_by_key_perm. apply perm_skip. exact IH.
Qed.

Lemma insert_by_key_sorted (x : pystr * V) (l : list (pystr * V)) :
  StronglySorted key_le l -> StronglySorted key_le (insert_by_key x l).
Proof.
  induction l as [|y l IH]; simpl; intros Hs.
  - constructor; constructor.
  - inversion Hs as [|? ? Hl Hy]; subst.
    destruct (PyStr.ltb (fst y) (fst x)) eqn:Hyx.
    + constructor; [auto|].
      apply Forall_forall. intros z Hz.
      apply (Permutation_in z (Permutation_sym (insert_by_key_perm x l))) in Hz.
      destruct Hz as [<-|Hz].
      * unfold key_le. apply ltb_asym. exact Hyx.
      * rewrite Forall_forall in Hy. auto.
    + constructor; [exact Hs|].
      constructor; [exact Hyx|].
      apply Forall_forall. intros z Hz.
      rewrite Forall_forall in Hy. specialize (Hy z Hz).
      unfold key_le in *. apply (not_ltb_trans (fst x) (fst y) (fst z)); auto.
Qed.

Lemma sorted_by_key_sorted (l : list (pystr * V)) :
  StronglySorted key_le (sorted_by_key l).
Proof.
  induction l as [|x l IH]; simpl; [constructor|].
  apply insert_by_key_sorted. exact IH.
Qed.

(** With pairwise distinct keys the order is strict. *)
Lemma sorted_distinct_strict (l : list (pystr * V)) :
  StronglySorted key_le l -> NoDup (map fst l) -> StronglySorted key_lt l.
Proof.
  induction 1 as [|x l Hs IH Hx]; simpl; intros Hnd; [constructor|].
  inversion Hnd as [|? ? Hnin Hnd']; subst.
  constructor; [auto|].
  apply Forall_forall. intros y Hy.
  rewrite Forall_forall in Hx. specialize (Hx y Hy).
  unfold key_le, key_lt in *.
  destruct (PyStr.ltb (fst x) (fst y)) eqn:Hlt; [reflexivity|].
  exfalso. apply Hnin. rewrite (ltb_trichotomy _ _ Hlt Hx).
  apply in_map. exact Hy.
Qed.

(** Two strictly sorted lists with the same elements are the same list. *)
Lemma strictly_sorted_unique (l1 l2 : list (pystr * V)) :
  StronglySorted key_lt l1 -> StronglySorted key_lt l2 ->
  Permutation l1 l2 -> l1 = l2.
Proof.
  intros H1. revert l2. induction H1 as [|x l1 Hs IH Hx]; intros l2 H2 Hp.
  - apply Permutation_nil in Hp. congruence.
  - destruct l2 as [|y l2].
    { apply Permutation_sym, Permutation_nil in Hp. discriminate. }
    inversion H2 as [|? ? Hs2 Hy]; subst.
    assert (Hxy : x = y).
    { assert (Hin1 : In x (y :: l2))
        by (apply (Permutation_in x Hp); left; reflexivity).
      assert (Hin2 : In y (x :: l1))
        by (apply (Permutation_in y (Permutation_sym Hp)); left; reflexivity).
      destruct Hin1 as [E|Hin1]; [congruence|].
      destruct Hin2 as [E|Hin2]; [congruence|].
      rewrite Forall_forall in Hx, Hy.
      specialize (Hx y Hin2). specialize (Hy x Hin1).
      unfold key_lt in *. rewrite (ltb_asym _ _ Hx) in Hy. discriminate. }
    subst y. f_equal. apply IH; [exact Hs2|].
    apply (Permutation_cons_inv Hp).
Qed.

End Sorting.

(* ================================================================= *)
(** ** Dicts with distinct keys *)

Section DictFacts.

Context {V : Type}.

Lemma dict_set_fresh (d : list (pystr * V)) (k : pystr) (v : V) :
  ~ In k (map fst d) -> dict_set d k v = d ++ [(k, v)].
Proof.
  induction d as [|[k' v'] d IH]; simpl; intros Hn; [reflexivity|].
  destruct (PyStr.eqb k' k) eqn:He.
  - apply eqb_eq in He. tauto.
  - rewrite IH; [reflexivity | tauto].
Qed.

Lemma dict_of_items_from (items acc : list (pystr * V)) :
  NoDup (map fst (acc ++ items)) ->
  fold_left (fun d kv => dict_set d (fst kv) (snd kv)) items acc
  = acc ++ items.
Proof.
  revert acc. induction items as [|[k v] items IH]; intros acc Hnd; simpl.
  - rewrite app_nil_r. reflexivity.
  - rewrite dict_set_fresh.
    + rewrite IH; rewrite <- app_assoc; [reflexivity | exact Hnd].
    + rewrite map_app in Hnd. simpl in Hnd.
      apply NoDup_remove_2 in Hnd. intros Hin. apply Hnd.
      apply in_or_app. left. exact Hin.
Qed.

(** A comprehension over items with distinct keys keeps them all, in
    their order. *)
Lemma dict_of_items_distinct (items : list (pystr * V)) :
  NoDup (map fst items) -> dict_of_items items = items.
Proof.
  intros H. unfold dict_of_items. apply (dict_of_items_from items []). exact H.
Qed.

Lemma dict_get_in (d : list (pystr * V)) (k : pystr) (v : V) :
  NoDup (map fst d) -> (dict_get d k = Some v <-> In (k, v) d).
Proof.
  induction d as [|[k' v'] d IH]; simpl; intros Hnd.
  - split; [discriminate | tauto].
  - inversion Hnd as [|? ? Hnin Hnd']; subst.
    destruct (PyStr.eqb k' k) eqn:He.
    + apply eqb_eq in He. subst k'. split.
      * intros H. inversion H. auto.
      * intros [H|H]; [congruence|].
        exfalso. apply Hnin. apply (in_map fst) in H. exact H.
    + apply eqb_neq in He. rewrite (IH Hnd'). split; [auto|].
      intros [H|H]; [congruence | exact H].
Qed.

End DictFacts.

(* ================================================================= *)
(** ** [/api/table-schemas] *)

Section TableSchemas.

Context {World Obj : Type}.
Variable py : runtime World Obj.
Variable db : aws_db_connection World Obj.

Lemma strictly_sorted_keys (l : list (pystr * pystr)) :
  StronglySorted key_lt l ->
  StronglySorted (fun a b => PyStr.ltb a b = true) (map fst l).
Proof.
  induction 1 as [|x l Hs IH Hx]; simpl; constructor; [exact IH|].
  apply Forall_forall. intros k Hk. apply in_map_iff in Hk.
  destruct Hk as [y [<- Hy]]. rewrite Forall_forall in Hx. apply Hx. exact Hy.
Qed.

Lemma sorted_keys_distinct (l : list (pystr * pystr)) :
  NoDup (map fst l) -> NoDup (map fst (sorted_by_key l)).
Proof.
  apply Permutation_NoDup, Permutation_map, sorted_by_key_perm.
Qed.

(** C5: with the mapping the collaborator returned (a dict: its keys are
    distinct), the answer lists the table names in strictly increasing
    lexicographic order, the same list whatever the order of the
    mapping's items, and [ddl] has exactly the listed names as keys, each
    with the DDL text the mapping gives it. *)
Theorem table_schemas_sorted_with_exact_ddl (arg : option pystr)
    (s : state World) (mapping : list (pystr * pystr)) (w' : World) :
  let schema := match arg with Some v => v | None => lit "public" end in
  list_table_schemas db schema (world s) = (inr mapping, w') ->
  NoDup (map fst mapping) ->
  exists tables ddl,
    fst (serve py db (GetTableSchemas arg) s)
    = Json 200 (PDict [(lit "schema", PStr schema);
                       (lit "tables", PList (map PStr tables));
                       (lit "ddl", PDict ddl)]) /\
    StronglySorted (fun a b => PyStr.ltb a b = true) tables /\
    Permutation tables (map fst mapping) /\
    (forall mapping', Permutation mapping' mapping ->
                      map fst (sorted_by_key mapping') = tables) /\
    map fst ddl = tables /\
    (forall name v,
       dict_get ddl name = Some v <->
       exists text, v = PStr text /\ In (name, text) mapping).
Proof.
  intros schema Hc Hnd.
  pose proof (sorted_keys_distinct mapping Hnd) as Hnd'.
  pose proof (sorted_distinct_strict _ (sorted_by_key_sorted mapping) Hnd')
    as Hstrict.
  set (render := fun kv : pystr * pystr => (fst kv, PStr (snd kv))).
  assert (Hkeys : map fst (map render (sorted_by_key mapping))
                  = map fst (sorted_by_key mapping)).
  { rewrite map_map. reflexivity. }
  exists (map fst (sorted_by_key mapping)),
         (map render (sorted_by_key mapping)).
  split; [|split; [|split; [|split; [|split]]]].
  - unfold serve, handler, api_table_schemas, bind, invoke.
    fold schema. rewrite Hc. cbn [fst ret].
    rewrite dict_of_items_distinct; [rewrite map_map; reflexivity|].
    fold render. rewrite Hkeys. exact Hnd'.
  - apply strictly_sorted_keys. exact Hstrict.
  - apply Permutation_map, Permutation_sym, sorted_by_key_perm.
  - intros mapping' Hp. f_equal.
    apply strictly_sorted_unique; [|exact Hstrict|].
    + apply sorted_distinct_strict; [apply sorted_by_key_sorted|].
      apply sorted_keys_distinct.
      apply (Permutation_NoDup (Permutation_map fst (Permutation_sym Hp))).
      exact Hnd.
    + rewrite <- (sorted_by_key_perm mapping'), <- (sorted_by_key_perm mapping).
      exact Hp.
  - exact Hkeys.
  - intros name v. rewrite dict_get_in by (rewrite Hkeys; exact Hnd').
    rewrite in_map_iff. split.
    + intros [[k text] [He Hin]]. unfold render in He. cbn in He.
      inversion He; subst. exists text. split; [reflexivity|].
      apply (Permutation_in _ (Permutation_sym (sorted_by_key_perm mapping))).
      exact Hin.
    + intros [text [-> Hin]]. exists (name, text). split; [reflexivity|].
      apply (Permutation_in _ (sorted_by_key_perm mapping)). exact Hin.
Qed.

End TableSchemas.

Lemma table_schemas_sorted_with_exact_ddl_witness :
  exists tables ddl,
    fst (serve Demo.py Demo.db (GetTableSchemas None) Demo.start)
    = Json 200 (PDict [(lit "schema", PStr (lit "public"));
                       (lit "tables", PList (map PStr tables));
                       (lit "ddl", PDict ddl)]) /\
    StronglySorted (fun a b => PyStr.ltb a b = true) tables /\
    Permutation tables [lit "users"; lit "notes"; lit "accounts"] /\
    (forall mapping',
       Permutation mapping'
         [(lit "users", lit "CREATE TABLE users (id integer);");
          (lit "notes", lit "CREATE TABLE notes (id integer, body text);");
          (lit "accounts", lit "CREATE TABLE accounts (id integer);")] ->
       map fst (sorted_by_key mapping') = tables) /\
    map fst ddl = tables /\
    (forall name v,
       dict_get ddl name = Some v <->
       exists text,
         v = PStr text /\
         In (name, text)
           [(lit "users", lit "CREATE TABLE users (id integer);");
            (lit "notes", lit "CREATE TABLE notes (id integer, body text);");
            (lit "accounts", lit "CREATE TABLE accounts (id integer);")]).
Proof.
  apply (table_schemas_sorted_with_exact_ddl Demo.py Demo.db None Demo.start
           [(lit "users", lit "CREATE TABLE users (id integer);");
            (lit "notes", lit "CREATE TABLE notes (id integer, body text);");
            (lit "accounts", lit "CREATE TABLE accounts (id integer);")]
           (world Demo.start)).
  - reflexivity.
  - repeat constructor; cbn; intuition discriminate.
Defined.

(* ================================================================= *)
(** ** The CSV writer is read back exactly *)

Section CsvFacts.

Import Csv.

Lemma special_false (c : char) :
  special c = false ->
  (c =? quotechar)%N = false /\ (c =? delimiter)%N = false /\
  is_break c = false.
Proof.
  unfold special, is_break, lineterminator. cbn [existsb].
  destruct (c =? delimiter)%N, (c =? quotechar)%N, (c =? 13)%N, (c =? 10)%N;
    cbn; intros H; try discriminate; auto.
Qed.

Lemma escape_plain (t : pystr) : existsb special t = false -> escape t = t.
Proof.
  induction t as [|c t IH]; cbn [existsb escape]; [reflexivity|].
  intros H. apply orb_false_elim in H. destruct H as [Hc Ht].
  destruct (special_false c Hc) as (Hq & _ & _). rewrite Hq, (IH Ht).
  reflexivity.
Qed.

Lemma join_append_nil (t : pystr) : join_append false t = [] -> t = [].
Proof.
  unfold join_append. cbn [orb].
  destruct (existsb special t) eqn:Hs; [discriminate|].
  rewrite (escape_plain t Hs). auto.
Qed.

(** An unquoted field is read character by character. *)
Lemma read_plain (t field : pystr) (record : list pystr) (rest : pystr) :
  existsb special t = false ->
  read_from (InField, field, record) (t ++ rest)
  = read_from (InField, rev t ++ field, record) rest.
Proof.
  revert field. induction t as [|c t IH]; intros field; cbn [existsb];
    [reflexivity|].
  intros H. apply orb_false_elim in H. destruct H as [Hc Ht].
  destruct (special_false c Hc) as (_ & Hd & Hb).
  cbn [app read_from step]. rewrite Hd, Hb. cbn [app].
  rewrite (IH _ Ht). cbn [rev]. rewrite <- app_assoc. reflexivity.
Qed.

(** Inside quotes, a doubled quote is read as one, up to the closing
    quote. *)
Lemma step_in_quoted (c : char) (field : pystr) (record : list pystr) :
  step (InQuoted, field, record) c
  = if (c =? quotechar)%N then ((QuoteInQuoted, field, record), [])
    else ((InQuoted, c :: field, record), []).
Proof. reflexivity. Qed.

Lemma step_doubled_quote (field : pystr) (record : list pystr) :
  step (QuoteInQuoted, field, record) quotechar
  = ((InQuoted, quotechar :: field, record), []).
Proof. reflexivity. Qed.

Lemma read_quoted (t field : pystr) (record : list pystr) (rest : pystr) :
  read_from (InQuoted, field, record) (escape t ++ quotechar :: rest)
  = read_from (QuoteInQuoted, rev t ++ field, record) rest.
Proof.
  revert field. induction t as [|c t IH]; intros field.
  - reflexivity.
  - cbn [escape rev]. rewrite <- app_assoc. cbn [app].
    destruct (c =? quotechar)%N eqn:Hq.
    + apply N.eqb_eq in Hq. subst c.
      cbn [app read_from]. rewrite step_in_quoted, N.eqb_refl.
      cbn [app read_from]. rewrite step_doubled_quote. cbn [app].
      apply IH.
    + cbn [app read_from]. rewrite step_in_quoted, Hq. cbn [app].
      apply IH.
Qed.


(** A written field is read up to, but not including, what follows it;
    the reader is then in [InField] or [QuoteInQuoted] with the field's
    text, unless the field was written as nothing. *)
Lemma read_field (m : mode) (record : list pystr) (t rest : pystr) :
  field_may_begin m record ->
  join_append false t <> [] ->
  exists m',
    (m' = InField \/ m' = QuoteInQuoted) /\
    read_from (m, [], record) (join_append false t ++ rest)
    = read_from (m', rev t, record) rest.
Proof.
  intros Hm Hne. unfold join_append in *. cbn [orb] in *.
  destruct (existsb special t) eqn:Hs.
  - exists QuoteInQuoted. split; [auto|].
    rewrite <- app_assoc. cbn [app].
    assert (Hstep : step (m, [], record) quotechar
                    = ((InQuoted, [], record), [])).
    { destruct Hm as [->|[-> ->]]; reflexivity. }
    cbn [read_from]. rewrite Hstep. cbn [app].
    rewrite <- app_assoc. cbn [app].
    rewrite read_quoted, app_nil_r. reflexivity.
  - rewrite (escape_plain t Hs) in *.
    destruct t as [|c t]; [congruence|].
    exists InField. split; [auto|].
    cbn [existsb] in Hs. apply orb_false_elim in Hs. destruct Hs as [Hc Ht].
    destruct (special_false c Hc) as (Hq & Hd & Hb).
    assert (Hstep : step (m, [], record) c = ((InField, [c], record), [])).
    { destruct Hm as [->|[-> ->]]; cbn [step]; unfold begin_field;
        rewrite Hb, Hq, Hd; reflexivity. }
    cbn [app read_from]. rewrite Hstep. cbn [app].
    exact (read_plain t [c] record rest Ht).
Qed.

Lemma read_field_then_delimiter (m : mode) (record : list pystr)
    (t rest : pystr) :
  field_may_begin m record ->
  read_from (m, [], record) (join_append false t ++ delimiter :: rest)
  = read_from (StartField, [], t :: record) rest.
Proof.
  intros Hm.
  destruct (list_eq_dec N.eq_dec (join_append false t) []) as [He|Hne].
  - rewrite He. rewrite (join_append_nil t He).
    destruct Hm as [->|[-> ->]]; reflexivity.
  - destruct (read_field m record t (delimiter :: rest) Hm Hne)
      as [m' [Hm' ->]].
    destruct Hm' as [->| ->]; cbn [read_from];
      change (step (?x, rev t, record) delimiter)
        with ((StartField, @nil char, rev (rev t) :: record),
              @nil (list pystr));
      cbn [app]; rewrite rev_involutive; reflexivity.
Qed.

Lemma read_field_then_break (m : mode) (record : list pystr)
    (t rest : pystr) :
  field_may_begin m record ->
  m = StartField \/ t <> [] ->
  read_from (m, [], record) (join_append false t ++ lineterminator ++ rest)
  = rev (t :: record) :: read_from (StartRecord, [], []) rest.
Proof.
  intros Hm Ht.
  destruct (list_eq_dec N.eq_dec (join_append false t) []) as [He|Hne].
  - rewrite He. pose proof (join_append_nil t He) as ->.
    destruct Ht as [->|Ht]; [reflexivity | congruence].
  - destruct (read_field m record t (lineterminator ++ rest) Hm Hne)
      as [m' [Hm' ->]].
    destruct Hm' as [->| ->]; cbn [read_from lineterminator app];
      change (step (?x, rev t, record) 13%N)
        with ((AfterCR, @nil char, @nil pystr), [finish (rev t) record]);
      cbn [app read_from];
      change (step (AfterCR, [], []) 10%N)
        with ((StartRecord, @nil char, @nil pystr), @nil (list pystr));
      cbn [app]; unfold finish; rewrite rev_involutive; reflexivity.
Qed.

(** The fields of a record after its first delimiter. *)
Lemma read_fields (ts : list pystr) (t : pystr) (record : list pystr)
    (rest : pystr) :
  read_from (StartField, [], record)
    (join [delimiter] (map (join_append false) (t :: ts))
     ++ lineterminator ++ rest)
  = (rev record ++ t :: ts) :: read_from (StartRecord, [], []) rest.
Proof.
  revert t record. induction ts as [|t2 ts IH]; intros t record.
  - cbn [map join].
    rewrite (read_field_then_break StartField record t rest);
      [reflexivity | left; reflexivity | left; reflexivity].
  - change (join [delimiter] (map (join_append false) (t :: t2 :: ts)))
      with (join_append false t
            ++ [delimiter] ++ join [delimiter] (map (join_append false) (t2 :: ts))).
    rewrite <- app_assoc. cbn [app].
    rewrite (read_field_then_delimiter StartField record t);
      [|left; reflexivity].
    rewrite IH. cbn [rev]. rewrite <- app_assoc. reflexivity.
Qed.

(** One written record is read as the texts of its fields. *)
Lemma read_writerow {Obj} (str_ : Obj -> pystr) (fields : list (cell Obj))
    (rest : pystr) :
  read_from (StartRecord, [], []) (writerow str_ fields ++ rest)
  = map (field_text str_) fields :: read_from (StartRecord, [], []) rest.
Proof.
  unfold writerow. rewrite <- (map_map (field_text str_) (join_append false)).
  destruct fields as [|f fs].
  - reflexivity.
  - cbn [map]. set (t := field_text str_ f). set (ts := map (field_text str_) fs).
    change (join_append false t :: map (join_append false) ts)
      with (map (join_append false) (t :: ts)).
    cbv zeta.
    destruct (join [delimiter] (map (join_append false) (t :: ts)))
      as [|c0 r0] eqn:Hj.
    + (* the record would be empty: one field, with no text *)
      destruct ts as [|t2 ts'].
      * cbn [map join] in Hj. rewrite (join_append_nil t Hj). reflexivity.
      * exfalso.
        change (join [delimiter] (map (join_append false) (t :: t2 :: ts')))
          with (join_append false t ++ [delimiter]
                ++ join [delimiter] (map (join_append false) (t2 :: ts')))
          in Hj.
        apply app_eq_nil in Hj. destruct Hj as [_ Hj]. discriminate.
    + rewrite <- Hj. rewrite <- app_assoc.
      destruct ts as [|t2 ts'].
      * cbn [map join] in *.
        rewrite (read_field_then_break StartRecord [] t rest);
          [reflexivity | right; auto |].
        right. intros ->. discriminate.
      * change (join [delimiter] (map (join_append false) (t :: t2 :: ts')))
          with (join_append false t ++ [delimiter]
                ++ join [delimiter] (map (join_append false) (t2 :: ts'))).
        rewrite <- app_assoc. cbn [app].
        rewrite (read_field_then_delimiter StartRecord [] t);
          [|right; auto].
        rewrite read_fields. reflexivity.
Qed.

Lemma read_writerows {Obj} (str_ : Obj -> pystr)
    (rows : list (list (cell Obj))) (rest : pystr) :
  read_from (StartRecord, [], []) (writerows str_ rows ++ rest)
  = map (map (field_text str_)) rows ++ read_from (StartRecord, [], []) rest.
Proof.
  unfold writerows. induction rows as [|r rows IH]; [reflexivity|].
  cbn [map concat]. rewrite <- app_assoc, read_writerow, IH. reflexivity.
Qed.

End CsvFacts.

(* ================================================================= *)
(** ** [/api/sql/csv]: the CSV attachment *)

Section SqlCsv.

Context {World Obj : Type}.
Variable py : runtime World Obj.
Variable db : aws_db_connection World Obj.

(** The writer takes the same text of a cell as [clip] does, and does
    not clip it. *)
Lemma field_text_is_cell_text (v : cell Obj) :
  Csv.field_text (str py) v = cell_text py v.
Proof. destruct v; reflexivity. Qed.

Lemma read_csv_text (cols : list pystr) (rows : list (list (cell Obj))) :
  Csv.read (csv_text py cols rows)
  = (match cols with [] => [] | _ :: _ => [cols] end)
    ++ map (map (cell_text py)) rows.
Proof.
  unfold Csv.read, csv_text.
  assert (Hrows : Csv.read_from (Csv.StartRecord, [], [])
                    (Csv.writerows (str py) rows)
                  = map (map (cell_text py)) rows).
  { rewrite <- (app_nil_r (Csv.writerows (str py) rows)).
    rewrite read_writerows. cbn [Csv.read_from Csv.at_end].
    rewrite app_nil_r. apply map_ext. intros r. apply map_ext.
    apply field_text_is_cell_text. }
  destruct cols as [|c cols]; [exact Hrows|].
  rewrite read_writerow, Hrows. cbn [app]. f_equal.
  rewrite map_map. cbn [Csv.field_text]. apply map_id.
Qed.

(** C2: a successful [/api/sql/csv] answer is the attachment
    [query_results.csv] of type [text/csv] whose content is the UTF-8 form
    of the written document: the header record when there are columns,
    then one record per row.  Read back as CSV, the document is the
    header followed by the full text of every cell, so quoting loses
    nothing and nothing is clipped. *)
Theorem api_sql_csv_full_document (b : body) (s s' : state World)
    (resp : response) :
  serve py db (PostSqlCsv b) s = (resp, s') ->
  status_of resp = 200%Z ->
  exists query cols rows rowcount duration_ms text data,
    _exec py db query s = (inr (cols, rows, rowcount, duration_ms), s') /\
    resp = SendFile data (lit "text/csv") true (lit "query_results.csv") /\
    encode_utf8 text = Some data /\
    text = (match cols with
            | [] => []
            | _ :: _ => Csv.writerow (str py) (map VStr cols)
            end) ++ concat (map (Csv.writerow (str py)) rows) /\
    Csv.read text
    = (match cols with [] => [] | _ :: _ => [cols] end)
      ++ map (map (cell_text py)) rows.
Proof.
  unfold serve, handler, api_sql_csv, bind. intros H Hst.
  pose proof (stripped_field_state b (lit "query") s) as Hs.
  destruct (stripped_field b (lit "query") s) as [[e|query] s0].
  - destruct e; inversion H; subst; discriminate.
  - cbn in Hs. subst s0.
    destruct (_exec py db query s) as [[e|[[[cols rows] rc] d]] s1] eqn:He.
    + destruct e; inversion H; subst; discriminate.
    + destruct (encode_utf8 (csv_text py cols rows)) as [data|] eqn:Hu.
      * unfold ret in H. inversion H; subst.
        exists query, cols, rows, rc, d, (csv_text py cols rows), data.
        split; [exact He|]. split; [reflexivity|]. split; [exact Hu|].
        split; [reflexivity | apply read_csv_text].
      * unfold raise in H. inversion H; subst. discriminate.
Qed.

End SqlCsv.

Lemma api_sql_csv_full_document_witness :
  let r := serve Demo.py Demo.db
             (PostSqlCsv (Demo.query_body (lit "SELECT * FROM notes")))
             Demo.start in
  exists query cols rows rowcount duration_ms text data,
    _exec Demo.py Demo.db query Demo.start
    = (inr (cols, rows, rowcount, duration_ms), snd r) /\
    fst r = SendFile data (lit "text/csv") true (lit "query_results.csv") /\
    encode_utf8 text = Some data /\
    text = (match cols with
            | [] => []
            | _ :: _ => Csv.writerow (str Demo.py) (map VStr cols)
            end) ++ concat (map (Csv.writerow (str Demo.py)) rows) /\
    Csv.read text
    = (match cols with [] => [] | _ :: _ => [cols] end)
      ++ map (map (cell_text Demo.py)) rows.
Proof.
  intros r.
  apply (@api_sql_csv_full_document _ _ Demo.py Demo.db
           (Demo.query_body (lit "SELECT * FROM notes")) Demo.start _ _).
  - apply surjective_pairing.
  - vm_compute. reflexivity.
Defined.

(* ================================================================= *)
(** ** The POST routes: what is read, and what is called *)

Lemma strip_is_tight (s : pystr) : tight (strip s).
Proof.
  unfold tight, strip. split.
  - destruct (lstrip s) as [|c m] eqn:H; [reflexivity|].
    pose proof (lstrip_head s c m H) as Hc.
    rewrite (rstrip_cons_nonspace c m Hc). simpl. rewrite Hc. reflexivity.
  - unfold rstrip. rewrite rev_involutive. apply lstrip_idempotent.
Qed.

Section PostRoutes.

Context {World Obj : Type}.
Variable py : runtime World Obj.
Variable db : aws_db_connection World Obj.

(** Reading a field can only fail with [AttributeError]. *)
Lemma stripped_field_raises (b : body) (f : pystr) (s s0 : state World)
    (e : exn) :
  stripped_field b f s = (inl e, s0) -> e = AttributeError.
Proof.
  unfold stripped_field, payload_get, value_strip, bind, ret, raise.
  destruct (py_or (get_json_silent b) (PDict [])); intros H;
    try (inversion H; reflexivity).
  destruct (py_or _ _); inversion H; reflexivity.
Qed.

(** A POST whose field cannot be read leaves the state as it was and is
    answered 500. *)
Lemma unreadable_field_server_error (ep : post_endpoint) (b : body)
    (s : state World) (e : exn) :
  stripped_field b (expected_field ep) s = (inl e, s) ->
  serve py db (post ep b) s
  = (ErrorPage 500 internal_server_error, s).
Proof.
  intros H. pose proof (stripped_field_raises _ _ _ _ _ H) as ->.
  destruct ep; unfold serve, post, handler, api_sql, api_sql_csv,
    api_create_database, api_connect_to, bind;
    cbn [expected_field] in H; rewrite H; reflexivity.
Qed.

(** A POST whose field reads as a non-empty string makes exactly one
    call, with that string. *)
Lemma named_post_calls (ep : post_endpoint) (b : body) (v : pystr)
    (s : state World) :
  stripped_field b (expected_field ep) s = (inr v, s) ->
  v <> [] ->
  exists ok,
    calls (snd (serve py db (post ep b) s))
    = calls s ++ [(call_for ep v, ok)].
Proof.
  intros H Hv.
  destruct (stripped_field_inv b _ v s s H Hv) as (d & raw & _ & _ & Hraw).
  assert (Hs : strip v <> []) by (rewrite Hraw, strip_idempotent; congruence).
  destruct ep; cbn [expected_field call_for] in *.
  - rewrite (sql_endpoints_state py db SqlEndpoint b v s (or_introl eq_refl) H).
    apply exec_forwards_its_argument. exact Hs.
  - rewrite (sql_endpoints_state py db SqlCsvEndpoint b v s
               (or_intror eq_refl) H).
    apply exec_forwards_its_argument. exact Hs.
  - unfold serve, post, handler, api_create_database, bind. rewrite H.
    destruct v as [|c t]; [congruence|]. cbn [truthy negb]. unfold invoke.
    destruct (create_database db (c :: t) (world s)) as [[e|u] w];
      eexists; reflexivity.
  - unfold serve, post, handler, api_connect_to, bind. rewrite H.
    destruct v as [|c t]; [congruence|]. cbn [truthy negb]. unfold invoke.
    destruct (connect_to db (c :: t) (world s)) as [[e|u] w];
      eexists; reflexivity.
Qed.

(** X1: a POST route calls the collaborator if and only if the body is
    a JSON object whose expected field is a string with a character that
    is not whitespace. *)
Theorem collaborator_called_iff_nonblank_string (ep : post_endpoint)
    (b : body) (s : state World) :
  calls (snd (serve py db (post ep b) s)) <> calls s <->
  exists d raw,
    b = JsonBody (PDict d) /\
    dict_get d (expected_field ep) = Some (PStr raw) /\
    strip raw <> [].
Proof.
  split.
  - intros Hcalls.
    pose proof (stripped_field_state b (expected_field ep) s) as Hs.
    destruct (stripped_field b (expected_field ep) s) as [[e|v] s0] eqn:Hf;
      cbn in Hs; subst s0.
    + rewrite (unreadable_field_server_error ep b s e Hf) in Hcalls.
      contradiction.
    + destruct v as [|c t].
      * rewrite (empty_field_rejected py db ep b s Hf) in Hcalls.
        contradiction.
      * assert (Hv : c :: t <> []) by discriminate.
        destruct (stripped_field_inv b _ _ s s Hf Hv) as (d & raw & Hb & Hd & Hr).
        exists d, raw. rewrite <- Hr. auto.
  - intros (d & raw & -> & Hd & Hr).
    destruct (named_post_calls ep _ (strip raw) s
                (stripped_field_string d _ raw s Hd) Hr) as [ok Hc].
    rewrite Hc. intros Heq.
    apply (f_equal (@length _)) in Heq. rewrite length_app in Heq.
    cbn in Heq. lia.
Qed.

(** X2: a field whose value is falsy without being a string ([false],
    [0], [0.0], an empty list or object) is read as the empty string:
    status 400, nothing called. *)
Theorem falsy_field_rejected (ep : post_endpoint)
    (d : list (pystr * pyval)) (v : pyval) (s : state World) :
  dict_get d (expected_field ep) = Some v ->
  truthy v = false ->
  serve py db (post ep (JsonBody (PDict d))) s
  = (ErrorPage 400 (rejection ep), s).
Proof.
  intros Hd Hv. apply empty_field_rejected.
  unfold stripped_field.
  rewrite payload_of_dict by (intros ->; discriminate).
  unfold payload_get, bind, ret. rewrite Hd.
  unfold py_or. rewrite Hv. reflexivity.
Qed.

(** X3: a field whose value is truthy but not a string (a number, [true],
    a non-empty list or object) has no [strip]: the request is answered
    500 and nothing is called. *)
Theorem non_string_field_server_error (ep : post_endpoint)
    (d : list (pystr * pyval)) (v : pyval) (s : state World) :
  dict_get d (expected_field ep) = Some v ->
  truthy v = true ->
  (forall raw, v <> PStr raw) ->
  serve py db (post ep (JsonBody (PDict d))) s
  = (ErrorPage 500 internal_server_error, s).
Proof.
  intros Hd Hv Hns.
  apply (unreadable_field_server_error ep _ s AttributeError).
  unfold stripped_field.
  rewrite payload_of_dict by (intros ->; discriminate).
  unfold payload_get, bind, ret. rewrite Hd.
  unfold py_or. rewrite Hv.
  destruct v; try reflexivity. exfalso. apply (Hns s0). reflexivity.
Qed.

(** X5: create-database and connect hand the collaborator the name with
    the whitespace at its ends removed, in their one call. *)
Theorem name_forwarded_stripped (ep : post_endpoint)
    (d : list (pystr * pyval)) (raw : pystr) (s : state World) :
  ep = CreateDatabaseEndpoint \/ ep = ConnectEndpoint ->
  dict_get d (lit "name") = Some (PStr raw) ->
  strip raw <> [] ->
  (exists ok,
     calls (snd (serve py db (post ep (JsonBody (PDict d))) s))
     = calls s ++ [(call_for ep (strip raw), ok)]) /\
  tight (strip raw).
Proof.
  intros Hep Hd Hr. split; [|apply strip_is_tight].
  apply named_post_calls; [|exact Hr].
  destruct Hep as [->| ->]; apply stripped_field_string; exact Hd.
Qed.

(** X6: creating a database answers [{ok: true, created: name}] with the
    stripped name when the collaborator returns and [{error: message}]
    with status 400 when it raises; in both cases [_current_db] stays. *)
Theorem create_database_outcome (d : list (pystr * pyval)) (raw : pystr)
    (s : state World) :
  dict_get d (lit "name") = Some (PStr raw) ->
  strip raw <> [] ->
  serve py db (PostDatabases (JsonBody (PDict d))) s =
  match create_database db (strip raw) (world s) with
  | (inl e, w') =>
      (Json 400 (PDict [(lit "error", PStr e)]),
       {| _current_db := _current_db s; world := w';
          calls := calls s ++ [(CallCreateDatabase (strip raw), false)] |})
  | (inr _, w') =>
      (Json 200 (PDict [(lit "ok", PBool true);
                        (lit "created", PStr (strip raw))]),
       {| _current_db := _current_db s; world := w';
          calls := calls s ++ [(CallCreateDatabase (strip raw), true)] |})
  end.
Proof.
  intros Hd Hr. unfold serve, handler, api_create_database, bind.
  rewrite (stripped_field_string d _ raw s Hd).
  destruct (strip raw) as [|c t]; [congruence|]. cbn [truthy negb].
  unfold invoke.
  destruct (create_database db (c :: t) (world s)) as [[e|u] w']; reflexivity.
Qed.

End PostRoutes.

Lemma falsy_field_rejected_witness :
  serve Demo.py Demo.db
    (post ConnectEndpoint (JsonBody (PDict [(lit "name", PInt 0)])))
    Demo.start
  = (ErrorPage 400 (rejection ConnectEndpoint), Demo.start).
Proof.
  apply (falsy_field_rejected Demo.py Demo.db ConnectEndpoint
           [(lit "name", PInt 0)] (PInt 0) Demo.start); reflexivity.
Defined.

Lemma non_string_field_server_error_witness :
  serve Demo.py Demo.db
    (post SqlEndpoint (JsonBody (PDict [(lit "query", PInt 5)])))
    Demo.start
  = (ErrorPage 500 internal_server_error, Demo.start).
Proof.
  apply (non_string_field_server_error Demo.py Demo.db SqlEndpoint
           [(lit "query", PInt 5)] (PInt 5) Demo.start);
    [reflexivity | reflexivity | discriminate].
Defined.

Lemma non_object_body_is_server_error_witness :
  serve Demo.py Demo.db (post SqlCsvEndpoint (JsonBody (PList [PInt 1])))
    Demo.start
  = (ErrorPage 500 internal_server_error, Demo.start).
Proof.
  apply (non_object_body_is_server_error Demo.py Demo.db SqlCsvEndpoint
           (PList [PInt 1]) Demo.start); [reflexivity | discriminate].
Defined.

Lemma name_forwarded_stripped_witness :
  (exists ok,
     calls (snd (serve Demo.py Demo.db
                   (post CreateDatabaseEndpoint (Demo.name_body (lit " crm ")))
                   Demo.start))
     = calls Demo.start
       ++ [(call_for CreateDatabaseEndpoint (strip (lit " crm ")), ok)]) /\
  tight (strip (lit " crm ")).
Proof.
  apply (name_forwarded_stripped Demo.py Demo.db CreateDatabaseEndpoint
           [(lit "name", PStr (lit " crm "))] (lit " crm ") Demo.start).
  - left. reflexivity.
  - reflexivity.
  - vm_compute. discriminate.
Defined.

Lemma create_database_outcome_witness :
  serve Demo.py Demo.db (PostDatabases (Demo.name_body (lit " crm ")))
    Demo.start
  = (Json 200 (PDict [(lit "ok", PBool true); (lit "created", PStr (lit "crm"))]),
     {| _current_db := lit "postgres";
        world := [lit "postgres"; lit "shop"; lit "crm"];
        calls := [(CallCreateDatabase (lit "crm"), true)] |}).
Proof.
  apply (create_database_outcome Demo.py Demo.db
           [(lit "name", PStr (lit " crm "))] (lit " crm ") Demo.start).
  - reflexivity.
  - vm_compute. discriminate.
Defined.

(* ================================================================= *)
(** ** [_exec] on what the cursor holds *)

Section ExecOutcomes.

Context {World Obj : Type}.
Variable py : runtime World Obj.
Variable db : aws_db_connection World Obj.

(** The two SQL routes on a query that passes the guard, by what the
    [try] block of [_exec] gives. *)
Lemma sql_routes_on_cursor (ep : post_endpoint) (d : list (pystr * pyval))
    (raw : pystr) (s : state World) :
  ep = SqlEndpoint \/ ep = SqlCsvEndpoint ->
  dict_get d (lit "query") = Some (PStr raw) ->
  strip raw <> [] ->
  let w1 := snd (perf_counter py (world s)) in
  fst (serve py db (post ep (JsonBody (PDict d))) s) =
  match fst (cursor_block db (strip raw) w1) with
  | inl e => ErrorPage 400 e
  | inr (cols, rows, rowcount) =>
      let w2 := snd (cursor_block db (strip raw) w1) in
      let duration_ms :=
        elapsed_ms py (fst (perf_counter py (world s)))
          (fst (perf_counter py w2)) in
      match ep with
      | SqlCsvEndpoint =>
          match encode_utf8 (csv_text py cols rows) with
          | Some data =>
              SendFile data (lit "text/csv") true (lit "query_results.csv")
          | None => ErrorPage 500 internal_server_error
          end
      | _ => Json 200 (sql_json py cols rows rowcount duration_ms)
      end
  end.
Proof.
  intros Hep Hd Hr w1. subst w1.
  pose proof (stripped_field_string d _ raw s Hd) as Hf.
  assert (Hs : strip (strip raw) <> [])
    by (rewrite strip_idempotent; exact Hr).
  destruct Hep as [->| ->];
    unfold serve, post, handler, api_sql, api_sql_csv, bind; rewrite Hf;
    rewrite (exec_runs py db (strip raw) s Hs); unfold exec_outcome;
    destruct (perf_counter py (world s)) as [t0 w1]; cbn [fst snd];
    destruct (cursor_block db (strip raw) w1) as [[e|[[cols rows] rc]] w2];
    cbn [fst snd]; try reflexivity;
    destruct (perf_counter py w2) as [t1 w3]; cbn [fst snd];
    try reflexivity.
  unfold raise, ret.
  destruct (encode_utf8 (csv_text py cols rows)); reflexivity.
Qed.

(** X7: a statement without a result set ([cur.description] is [None] or
    empty) gives the empty table with the cursor's row count, and an
    empty CSV file; [fetchall] is not consulted, whatever it would do. *)
Theorem no_result_set_gives_empty_table (d : list (pystr * pyval))
    (raw : pystr) (s : state World) (cur : cursor Obj) (w2 : World) :
  dict_get d (lit "query") = Some (PStr raw) ->
  strip raw <> [] ->
  conn_cursor_execute db (strip raw) (snd (perf_counter py (world s)))
  = (inr cur, w2) ->
  description cur = None \/ description cur = Some [] ->
  (exists duration_ms,
     fst (serve py db (PostSql (JsonBody (PDict d))) s)
     = Json 200 (PDict [(lit "columns", PList []);
                        (lit "rows", PList []);
                        (lit "rowcount", PInt (rowcount cur));
                        (lit "duration_ms", PFloat duration_ms)])) /\
  fst (serve py db (PostSqlCsv (JsonBody (PDict d))) s)
  = SendFile [] (lit "text/csv") true (lit "query_results.csv").
Proof.
  intros Hd Hr Hc Hdesc.
  pose proof (sql_routes_on_cursor SqlEndpoint d raw s
                (or_introl eq_refl) Hd Hr) as Hj.
  pose proof (sql_routes_on_cursor SqlCsvEndpoint d raw s
                (or_intror eq_refl) Hd Hr) as Hv.
  cbv zeta in Hj, Hv. cbn [post] in Hj, Hv.
  unfold cursor_block in Hj, Hv. rewrite Hc in Hj, Hv.
  unfold read_cursor in Hj, Hv.
  destruct Hdesc as [Hn|Hn]; rewrite Hn in Hj, Hv; cbn in Hj, Hv;
    (split; [eexists; exact Hj | exact Hv]).
Qed.

(** X8: when [cur.execute] raises, or [fetchall] raises on a statement
    with a result set, both SQL routes answer 400 with the message of
    the exception as it is. *)
Theorem sql_failure_message_verbatim (ep : post_endpoint)
    (d : list (pystr * pyval)) (raw : pystr) (s : state World)
    (e : pystr) (w2 : World) :
  ep = SqlEndpoint \/ ep = SqlCsvEndpoint ->
  dict_get d (lit "query") = Some (PStr raw) ->
  strip raw <> [] ->
  (conn_cursor_execute db (strip raw) (snd (perf_counter py (world s)))
   = (inl e, w2) \/
   exists cur c cs,
     conn_cursor_execute db (strip raw) (snd (perf_counter py (world s)))
     = (inr cur, w2) /\
     description cur = Some (c :: cs) /\ fetchall cur = inl e) ->
  fst (serve py db (post ep (JsonBody (PDict d))) s) = ErrorPage 400 e.
Proof.
  intros Hep Hd Hr Hfail.
  rewrite (sql_routes_on_cursor ep d raw s Hep Hd Hr). cbv zeta.
  unfold cursor_block.
  destruct Hfail as [Hc|(cur & c & cs & Hc & Hdesc & Hfetch)]; rewrite Hc.
  - reflexivity.
  - unfold read_cursor. rewrite Hdesc, Hfetch. reflexivity.
Qed.

(** X9: on a statement with a result set, [/api/sql] answers with the
    column names of [cur.description] in their order, the fetched rows
    clipped cell by cell, and the cursor's row count untouched. *)
Theorem api_sql_table_from_cursor (d : list (pystr * pyval)) (raw : pystr)
    (s : state World) (cur : cursor Obj) (w2 : World)
    (c : pystr * Z) (cs : list (pystr * Z)) (rows : list (list (cell Obj))) :
  dict_get d (lit "query") = Some (PStr raw) ->
  strip raw <> [] ->
  conn_cursor_execute db (strip raw) (snd (perf_counter py (world s)))
  = (inr cur, w2) ->
  description cur = Some (c :: cs) ->
  fetchall cur = inr rows ->
  exists duration_ms,
    fst (serve py db (PostSql (JsonBody (PDict d))) s)
    = Json 200
        (PDict [(lit "columns", PList (map (fun k => PStr (fst k)) (c :: cs)));
                (lit "rows",
                 PList (map (fun r =>
                               PList (map (fun v => PStr (clip py v)) r))
                          rows));
                (lit "rowcount", PInt (rowcount cur));
                (lit "duration_ms", PFloat duration_ms)]).
Proof.
  intros Hd Hr Hc Hdesc Hfetch.
  pose proof (sql_routes_on_cursor SqlEndpoint d raw s
                (or_introl eq_refl) Hd Hr) as Hj.
  cbv zeta in Hj. cbn [post] in Hj.
  unfold cursor_block in Hj. rewrite Hc in Hj.
  unfold read_cursor in Hj. rewrite Hdesc, Hfetch in Hj. cbn [fst snd] in Hj.
  eexists. rewrite Hj. unfold sql_json. rewrite map_map. reflexivity.
Qed.

End ExecOutcomes.

Lemma no_result_set_gives_empty_table_witness :
  let d := [(lit "query", PStr (lit "UPDATE notes SET body = NULL"))] in
  (exists duration_ms,
     fst (serve Faulty.py Faulty.db (PostSql (JsonBody (PDict d))) Faulty.start)
     = Json 200 (PDict [(lit "columns", PList []);
                        (lit "rows", PList []);
                        (lit "rowcount", PInt 7);
                        (lit "duration_ms", PFloat duration_ms)])) /\
  fst (serve Faulty.py Faulty.db (PostSqlCsv (JsonBody (PDict d))) Faulty.start)
  = SendFile [] (lit "text/csv") true (lit "query_results.csv").
Proof.
  intros d.
  apply (no_result_set_gives_empty_table Faulty.py Faulty.db d
           (lit "UPDATE notes SET body = NULL") Faulty.start
           {| description := None;
              fetchall := inl (lit "no results to fetch");
              rowcount := 7 |} tt).
  - reflexivity.
  - vm_compute. discriminate.
  - reflexivity.
  - left. reflexivity.
Defined.

Lemma sql_failure_message_verbatim_witness :
  fst (serve Faulty.py Faulty.db
         (post SqlCsvEndpoint
            (JsonBody (PDict [(lit "query", PStr (lit "SELECT * FROM gone"))])))
         Faulty.start)
  = ErrorPage 400 (lit "connection already closed").
Proof.
  apply (sql_failure_message_verbatim Faulty.py Faulty.db SqlCsvEndpoint
           [(lit "query", PStr (lit "SELECT * FROM gone"))]
           (lit "SELECT * FROM gone") Faulty.start
           (lit "connection already closed") tt).
  - right. reflexivity.
  - reflexivity.
  - vm_compute. discriminate.
  - right. eexists. exists (lit "id", 23%Z), []. repeat split.
Defined.

Lemma api_sql_table_from_cursor_witness :
  exists duration_ms,
    fst (serve Demo.py Demo.db (PostSql (Demo.query_body (lit "SELECT 1")))
           Demo.start)
    = Json 200
        (PDict [(lit "columns", PList [PStr (lit "?column?")]);
                (lit "rows", PList [PList [PStr (lit "1")]]);
                (lit "rowcount", PInt 1);
                (lit "duration_ms", PFloat duration_ms)]).
Proof.
  apply (api_sql_table_from_cursor Demo.py Demo.db
           [(lit "query", PStr (lit "SELECT 1"))] (lit "SELECT 1") Demo.start
           {| description := Some [(lit "?column?", 23%Z)];
              fetchall := inr [[VObj 1%Z]];
              rowcount := 1 |}
           (world Demo.start) (lit "?column?", 23%Z) [] [[VObj 1%Z]]).
  - reflexivity.
  - vm_compute. discriminate.
  - reflexivity.
  - reflexivity.
  - reflexivity.
Defined.

(* ================================================================= *)
(** ** The JSON table against the CSV document *)

Lemma encode_utf8_fails (s : pystr) (x : char) :
  In x s -> utf8_char x = None -> encode_utf8 s = None.
Proof.
  induction s as [|c t IH]; intros Hin Hx; [destruct Hin|].
  cbn [encode_utf8]. destruct Hin as [->|Hin].
  - rewrite Hx. reflexivity.
  - rewrite (IH Hin Hx). destruct (utf8_char c); reflexivity.
Qed.

Lemma surrogate_unencodable (x : char) :
  (55296 <= x <= 57343)%N -> utf8_char x = None.
Proof.
  intros Hx. unfold utf8_char.
  destruct (N.ltb_spec x 128); [lia|].
  destruct (N.ltb_spec x 2048); [lia|].
  destruct (N.ltb_spec x 65536); [|lia].
  destruct (N.leb_spec 55296 x); [|lia].
  destruct (N.leb_spec x 57343); [reflexivity | lia].
Qed.

Section WrittenCharacters.

Context {Obj : Type}.
Variable str_ : Obj -> pystr.

Lemma in_escape (x : char) (t : pystr) : In x t -> In x (Csv.escape t).
Proof.
  induction t as [|c t IH]; [auto|]. cbn [Csv.escape].
  intros Hin. destruct (c =? Csv.quotechar)%N eqn:Hq.
  - apply N.eqb_eq in Hq. destruct Hin as [<-|Hin]; cbn; auto.
  - destruct Hin as [<-|Hin]; cbn; auto.
Qed.

Lemma in_join_append (x : char) (q : bool) (t : pystr) :
  In x t -> In x (Csv.join_append q t).
Proof.
  intros H. apply in_escape in H. unfold Csv.join_append.
  destruct (q || existsb Csv.special t); [|exact H].
  apply in_or_app. right. apply in_or_app. left. exact H.
Qed.

Lemma in_join (x : char) (sep : pystr) (parts : list pystr) (p : pystr) :
  In p parts -> In x p -> In x (join sep parts).
Proof.
  induction parts as [|p0 rest IH]; [intros []|].
  intros Hp Hx. destruct rest as [|p1 rest].
  - destruct Hp as [->|[]]. exact Hx.
  - change (join sep (p0 :: p1 :: rest))
      with (p0 ++ sep ++ join sep (p1 :: rest)).
    destruct Hp as [->|Hp].
    + apply in_or_app. left. exact Hx.
    + apply in_or_app. right. apply in_or_app. right. apply IH; assumption.
Qed.

(** Every character of a field's text is in the written record. *)
Lemma in_writerow (x : char) (fields : list (cell Obj)) (f : cell Obj) :
  In f fields -> In x (Csv.field_text str_ f) ->
  In x (Csv.writerow str_ fields).
Proof.
  intros Hf Hx. unfold Csv.writerow.
  assert (Hrec : In x (join [Csv.delimiter]
                         (map (fun f => Csv.join_append false
                                          (Csv.field_text str_ f)) fields))).
  { apply (in_join x _ _ (Csv.join_append false (Csv.field_text str_ f))).
    - apply (in_map (fun f => Csv.join_append false (Csv.field_text str_ f))).
      exact Hf.
    - apply in_join_append. exact Hx. }
  cbv zeta. apply in_or_app. left.
  destruct fields as [|f0 fs]; [destruct Hf|].
  destruct (join [Csv.delimiter] _) as [|c0 r0]; [destruct Hrec | exact Hrec].
Qed.

Lemma in_writerows (x : char) (rows : list (list (cell Obj)))
    (r : list (cell Obj)) (f : cell Obj) :
  In r rows -> In f r -> In x (Csv.field_text str_ f) ->
  In x (Csv.writerows str_ rows).
Proof.
  intros Hr Hf Hx. unfold Csv.writerows. apply in_concat.
  exists (Csv.writerow str_ r). split.
  - apply in_map. exact Hr.
  - apply (in_writerow x r f Hf Hx).
Qed.

End WrittenCharacters.

Section JsonAgainstCsv.

Context {World Obj : Type}.
Variable py : runtime World Obj.
Variable db : aws_db_connection World Obj.

(** X10: a fetched cell whose text holds a lone surrogate cannot be
    encoded: [/api/sql/csv] answers 500 on the query that [/api/sql]
    answers with status 200. *)
Theorem csv_export_fails_on_lone_surrogate (d : list (pystr * pyval))
    (raw : pystr) (s : state World) (cur : cursor Obj) (w2 : World)
    (c : pystr * Z) (cs : list (pystr * Z)) (rows : list (list (cell Obj)))
    (r : list (cell Obj)) (v : cell Obj) (x : char) :
  dict_get d (lit "query") = Some (PStr raw) ->
  strip raw <> [] ->
  conn_cursor_execute db (strip raw) (snd (perf_counter py (world s)))
  = (inr cur, w2) ->
  description cur = Some (c :: cs) ->
  fetchall cur = inr rows ->
  In r rows -> In v r -> In x (cell_text py v) ->
  (55296 <= x <= 57343)%N ->
  fst (serve py db (PostSqlCsv (JsonBody (PDict d))) s)
  = ErrorPage 500 internal_server_error /\
  status_of (fst (serve py db (PostSql (JsonBody (PDict d))) s)) = 200%Z.
Proof.
  intros Hd Hr Hc Hdesc Hfetch Hrow Hcell Hx Hsur.
  pose proof (sql_routes_on_cursor py db SqlEndpoint d raw s
                (or_introl eq_refl) Hd Hr) as Hj.
  pose proof (sql_routes_on_cursor py db SqlCsvEndpoint d raw s
                (or_intror eq_refl) Hd Hr) as Hv.
  cbv zeta in Hj, Hv. cbn [post] in Hj, Hv.
  unfold cursor_block in Hj, Hv. rewrite Hc in Hj, Hv.
  unfold read_cursor in Hj, Hv. rewrite Hdesc, Hfetch in Hj, Hv.
  cbn [fst snd] in Hj, Hv. rewrite Hj, Hv. split; [|reflexivity].
  rewrite (encode_utf8_fails _ x); [reflexivity | | ].
  - unfold csv_text. apply in_or_app. right.
    apply (in_writerows (str py) x rows r v Hrow Hcell).
    rewrite field_text_is_cell_text. exact Hx.
  - apply surrogate_unencodable. exact Hsur.
Qed.

(** X11: the rows of the JSON table are the records of the CSV document
    read back, without the header record, each field clipped. *)
Theorem json_rows_are_clipped_csv_records (cols : list pystr)
    (rows : list (list (cell Obj))) (rowcount : Z) (duration_ms : spec_float) :
  let header := match cols with [] => 0 | _ :: _ => 1 end in
  let records := Csv.read (csv_text py cols rows) in
  length records = header + length rows /\
  sql_json py cols rows rowcount duration_ms
  = PDict [(lit "columns", PList (map PStr cols));
           (lit "rows",
            PList (map (fun r =>
                          PList (map (fun t => PStr (clip py (VStr t))) r))
                     (skipn header records)));
           (lit "rowcount", PInt rowcount);
           (lit "duration_ms", PFloat duration_ms)].
Proof.
  intros header records. subst header records.
  rewrite read_csv_text. split.
  - rewrite length_app, length_map. destruct cols; reflexivity.
  - unfold sql_json. do 3 f_equal.
    assert (Hskip : skipn (match cols with [] => 0 | _ :: _ => 1 end)
                      ((match cols with [] => [] | _ :: _ => [cols] end)
                       ++ map (map (cell_text py)) rows)
                    = map (map (cell_text py)) rows)
      by (destruct cols; reflexivity).
    rewrite Hskip, map_map. f_equal. f_equal.
    apply map_ext. intros r. rewrite map_map. reflexivity.
Qed.

(** X12: [clip] keeps the first 2000 characters of a cell's text and
    never returns a longer string than the text. *)
Theorem clip_keeps_prefix_and_never_lengthens (v : cell Obj) :
  firstn 2000 (clip py v) = firstn 2000 (cell_text py v) /\
  length (clip py v) <= length (cell_text py v).
Proof.
  destruct (Nat.le_gt_cases (length (cell_text py v)) 2000) as [H|H].
  - rewrite (clip_short py v H). auto.
  - rewrite (clip_long py v H). split.
    + rewrite firstn_app, firstn_firstn, Nat.min_id.
      replace (2000 - length (firstn 2000 (cell_text py v))) with 0
        by (rewrite length_firstn; lia).
      rewrite firstn_O, app_nil_r. reflexivity.
    + rewrite length_app, length_firstn. simpl length. lia.
Qed.

End JsonAgainstCsv.

Lemma csv_export_fails_on_lone_surrogate_witness :
  let d := [(lit "query", PStr (lit "SELECT raw FROM blobs"))] in
  fst (serve Faulty.py Faulty.db (PostSqlCsv (JsonBody (PDict d))) Faulty.start)
  = ErrorPage 500 internal_server_error /\
  status_of (fst (serve Faulty.py Faulty.db (PostSql (JsonBody (PDict d)))
                    Faulty.start)) = 200%Z.
Proof.
  intros d.
  apply (csv_export_fails_on_lone_surrogate Faulty.py Faulty.db d
           (lit "SELECT raw FROM blobs") Faulty.start
           {| description := Some [(lit "raw", 25%Z)];
              fetchall := inr [[VStr Faulty.broken_text]];
              rowcount := 1 |} tt
           (lit "raw", 25%Z) [] [[VStr Faulty.broken_text]]
           [VStr Faulty.broken_text] (VStr Faulty.broken_text) 56448%N).
  - reflexivity.
  - vm_compute. discriminate.
  - reflexivity.
  - reflexivity.
  - reflexivity.
  - left. reflexivity.
  - left. reflexivity.
  - right. left. reflexivity.
  - lia.
Defined.

(* ================================================================= *)
(** ** One request, and many *)

Section Requests.

Context {World Obj : Type}.
Variable py : runtime World Obj.
Variable db : aws_db_connection World Obj.




(** One request: [_current_db] stays, or becomes the stripped name of
    the connect request being served. *)
Lemma serve_current_db_cases (r : request) (s : state World) :
  _current_db (snd (serve py db r s)) = _current_db s \/
  exists d raw,
    r = PostConnect (JsonBody (PDict d)) /\
    dict_get d (lit "name") = Some (PStr raw) /\
    strip raw <> [] /\
    _current_db (snd (serve py db r s)) = strip raw.
Proof.
  destruct r as [| |b|b|arg|b|b|];
    try (left; apply other_routes_keep_current_db; intros b0; discriminate).
  pose proof (stripped_field_state b (lit "name") s) as Hs.
  change (PostConnect b) with (post ConnectEndpoint b).
  destruct (stripped_field b (lit "name") s) as [[e|name] s0] eqn:Hf;
    cbn in Hs; subst s0.
  - left.
    rewrite (unreadable_field_server_error py db ConnectEndpoint b s e Hf).
    reflexivity.
  - destruct name as [|c t].
    + left. rewrite (empty_field_rejected py db ConnectEndpoint b s Hf).
      reflexivity.
    + assert (Hn : c :: t <> []) by discriminate.
      destruct (stripped_field_inv b _ _ s s Hf Hn) as (d & raw & -> & Hd & Hr).
      cbn [post]. rewrite (connect_named py db _ _ s Hf Hn).
      destruct (connect_to db (c :: t) (world s)) as [[e|u] w'].
      * left. reflexivity.
      * right. exists d, raw. rewrite <- Hr. auto.
Qed.

Lemma serve_all_cons (r : request) (rs : list request) (s : state World) :
  snd (serve_all py db (r :: rs) s)
  = snd (serve_all py db rs (snd (serve py db r s))).
Proof.
  cbn [serve_all]. destruct (serve py db r s) as [resp s1]. cbn [snd].
  destruct (serve_all py db rs s1) as [resps s2]. reflexivity.
Qed.

Lemma serve_all_current_db (rs : list request) (s : state World) :
  _current_db (snd (serve_all py db rs s)) = _current_db s \/
  exists d raw,
    In (PostConnect (JsonBody (PDict d))) rs /\
    dict_get d (lit "name") = Some (PStr raw) /\
    strip raw <> [] /\
    _current_db (snd (serve_all py db rs s)) = strip raw.
Proof.
  revert s. induction rs as [|r rs IH]; intros s; [left; reflexivity|].
  rewrite serve_all_cons.
  destruct (IH (snd (serve py db r s))) as [H|(d & raw & Hin & Hd & Hr & H)].
  - rewrite H.
    destruct (serve_current_db_cases r s) as [H1|(d & raw & -> & Hd & Hr & H1)].
    + left. exact H1.
    + right. exists d, raw. repeat split; auto. left. reflexivity.
  - right. exists d, raw. repeat split; auto. right. exact Hin.
Qed.

(** X14: from the moment the module is loaded and over any sequence of
    requests, [_current_db] is never the empty string: it is the value
    it was loaded with (the environment's name, or [postgres]) or the
    stripped, non-empty name of a connect request that was served. *)
Theorem current_db_never_empty (db_name : option pystr) (w : World)
    (rs : list request) :
  let final := snd (serve_all py db rs (loaded db_name w)) in
  _current_db final <> [] /\
  (_current_db final = initial_current_db db_name \/
   exists d raw,
     In (PostConnect (JsonBody (PDict d))) rs /\
     dict_get d (lit "name") = Some (PStr raw) /\
     _current_db final = strip raw /\ tight (_current_db final)).
Proof.
  intros final. subst final.
  assert (Hinit : initial_current_db db_name <> []).
  { destruct db_name as [[|c t]|]; discriminate. }
  split.
  - destruct (serve_all_current_db rs (loaded db_name w))
      as [H|(d & raw & _ & _ & Hr & H)]; rewrite H; auto.
  - destruct (serve_all_current_db rs (loaded db_name w))
      as [H|(d & raw & Hin & Hd & Hr & H)].
    + left. exact H.
    + right. exists d, raw. rewrite H.
      repeat split; auto; apply strip_is_tight.
Qed.

(** X15: after a connect that succeeded, the page, the database list
    and the health check all show the name that was connected to. *)
Theorem connected_name_is_reported (d : list (pystr * pyval)) (raw : pystr)
    (s : state World) (w' : World) :
  dict_get d (lit "name") = Some (PStr raw) ->
  strip raw <> [] ->
  connect_to db (strip raw) (world s) = (inr tt, w') ->
  let s1 := snd (serve py db (PostConnect (JsonBody (PDict d))) s) in
  fst (serve py db GetIndex s1) = Template (lit "index.html") (strip raw) /\
  (forall names w2,
     list_databases db w' = (inr names, w2) ->
     fst (serve py db GetDatabases s1)
     = Json 200 (PDict [(lit "databases", PList (map PStr names));
                        (lit "current", PStr (strip raw))])) /\
  (forall u w2,
     execute db (lit "SELECT 1") w' = (inr u, w2) ->
     fst (serve py db GetHealthz s1)
     = Json 200 (PDict [(lit "ok", PBool true);
                        (lit "db", PStr (strip raw))])).
Proof.
  intros Hd Hr Hc s1. subst s1.
  rewrite (connect_named py db _ _ s (stripped_field_string d _ raw s Hd) Hr).
  rewrite Hc. cbn [snd]. split; [reflexivity|]. split.
  - intros names w2 Hl.
    unfold serve, handler, api_list_databases, bind, invoke.
    cbn [world]. rewrite Hl. reflexivity.
  - intros u w2 He.
    unfold serve, handler, healthz, bind, invoke.
    cbn [world]. rewrite He. reflexivity.
Qed.

(** Listing the databases answers with the names as the collaborator
    gave them and the current selection, or with the collaborator's
    message and status 400. *)
Remark list_databases_outcome (s : state World) :
  serve py db GetDatabases s =
  match list_databases db (world s) with
  | (inl e, w') =>
      (Json 400 (PDict [(lit "error", PStr e)]),
       {| _current_db := _current_db s; world := w';
          calls := calls s ++ [(CallListDatabases, false)] |})
  | (inr names, w') =>
      (Json 200 (PDict [(lit "databases", PList (map PStr names));
                        (lit "current", PStr (_current_db s))]),
       {| _current_db := _current_db s; world := w';
          calls := calls s ++ [(CallListDatabases, true)] |})
  end.
Proof.
  unfold serve, handler, api_list_databases, bind, invoke.
  destruct (list_databases db (world s)) as [[e|names] w']; reflexivity.
Qed.

(** X16: [/api/table-schemas] asks the collaborator for the schema of
    the query parameter, [public] only when the parameter is absent (an
    empty parameter is passed on as it is), and answers a failure with
    the collaborator's message and status 400. *)
Theorem table_schemas_parameter_and_failure (arg : option pystr)
    (s : state World) :
  let schema := match arg with Some v => v | None => lit "public" end in
  (exists ok,
     calls (snd (serve py db (GetTableSchemas arg) s))
     = calls s ++ [(CallListTableSchemas schema, ok)]) /\
  (forall e w',
     list_table_schemas db schema (world s) = (inl e, w') ->
     fst (serve py db (GetTableSchemas arg) s)
     = Json 400 (PDict [(lit "error", PStr e)])).
Proof.
  intros schema. split.
  - unfold serve, handler, api_table_schemas, bind, invoke. fold schema.
    destruct (list_table_schemas db schema (world s)) as [[e|m] w];
      eexists; reflexivity.
  - intros e w' H.
    unfold serve, handler, api_table_schemas, bind, invoke. fold schema.
    rewrite H. reflexivity.
Qed.

End Requests.

Lemma connected_name_is_reported_witness :
  let s1 := snd (serve Demo.py Demo.db
                   (PostConnect (Demo.name_body (lit " shop "))) Demo.start) in
  fst (serve Demo.py Demo.db GetIndex s1)
  = Template (lit "index.html") (lit "shop") /\
  fst (serve Demo.py Demo.db GetDatabases s1)
  = Json 200 (PDict [(lit "databases",
                      PList [PStr (lit "postgres"); PStr (lit "shop")]);
                     (lit "current", PStr (lit "shop"))]) /\
  fst (serve Demo.py Demo.db GetHealthz s1)
  = Json 200 (PDict [(lit "ok", PBool true); (lit "db", PStr (lit "shop"))]).
Proof.
  intros s1.
  destruct (connected_name_is_reported Demo.py Demo.db
              [(lit "name", PStr (lit " shop "))] (lit " shop ") Demo.start
              (world Demo.start))
    as (H1 & H2 & H3).
  - reflexivity.
  - vm_compute. discriminate.
  - reflexivity.
  - split; [exact H1|]. split.
    + apply (H2 [lit "postgres"; lit "shop"] (world Demo.start)). reflexivity.
    + apply (H3 tt (world Demo.start)). reflexivity.
Defined.

(* ================================================================= *)
(** ** The bytes of the attachment *)

Lemma split64 (c : N) : (c = 64 * (c / 64) + c mod 64 /\ c mod 64 < 64)%N.
Proof.
  split; [apply N.div_mod; discriminate | apply N.mod_lt; discriminate].
Qed.

Lemma div4096 (c : N) : (c / 4096 = c / 64 / 64)%N.
Proof. rewrite N.Div0.div_div. reflexivity. Qed.

Lemma div262144 (c : N) : (c / 262144 = c / 64 / 64 / 64)%N.
Proof. rewrite !N.Div0.div_div. reflexivity. Qed.

(** The bytes of one character decode to that character. *)
Lemma decode_char (c : char) (bs rest : list N) :
  utf8_char c = Some bs ->
  decode_utf8 (bs ++ rest) = option_map (cons c) (decode_utf8 rest).
Proof.
  unfold utf8_char. rewrite (div4096 c), (div262144 c).
  remember (c / 64 / 64 / 64)%N as q3 eqn:E3.
  remember ((c / 64 / 64) mod 64)%N as r2 eqn:E2.
  remember ((c / 64) mod 64)%N as r1 eqn:E1.
  remember (c mod 64)%N as r0 eqn:E0.
  remember (c / 64)%N as q1 eqn:F1.
  remember (q1 / 64)%N as q2 eqn:F2.
  assert (Hc : (c = 64 * q1 + r0 /\ r0 < 64 /\ q1 = 64 * q2 + r1 /\ r1 < 64
                /\ q2 = 64 * q3 + r2 /\ r2 < 64)%N).
  { subst. pose proof (split64 c). pose proof (split64 (c / 64)).
    pose proof (split64 (c / 64 / 64)). tauto. }
  clear E3 E2 E1 E0 F1 F2.
  remember (240 + q3)%N as a4 eqn:A4. remember (224 + q2)%N as a3 eqn:A3.
  remember (192 + q1)%N as a2 eqn:A2. remember (128 + r2)%N as t2 eqn:T2.
  remember (128 + r1)%N as t1 eqn:T1. remember (128 + r0)%N as t0 eqn:T0.
  destruct (N.ltb_spec c 128).
  { intros [= <-]. cbn [app decode_utf8].
    destruct (N.ltb_spec c 128); [reflexivity | lia]. }
  destruct (N.ltb_spec c 2048).
  { intros [= <-]. cbn [app decode_utf8]. unfold continuation.
    decide_byte_tests. cbn [andb]. f_equal. f_equal. lia. }
  destruct (N.ltb_spec c 65536).
  { destruct ((55296 <=? c)%N && (c <=? 57343)%N); [discriminate|].
    intros [= <-]. cbn [app decode_utf8]. unfold continuation.
    decide_byte_tests. cbn [andb]. f_equal. f_equal. lia. }
  destruct (N.ltb_spec c 1114112); [|discriminate].
  intros [= <-]. cbn [app decode_utf8]. unfold continuation.
  decide_byte_tests. cbn [andb]. f_equal. f_equal. lia.
Qed.

Lemma decode_encode (s : pystr) (bs : list N) :
  encode_utf8 s = Some bs -> decode_utf8 bs = Some s.
Proof.
  revert bs. induction s as [|c t IH]; intros bs; cbn [encode_utf8].
  - intros [= <-]. reflexivity.
  - destruct (utf8_char c) as [b|] eqn:Hc; [|discriminate].
    destruct (encode_utf8 t) as [bt|]; [|discriminate].
    intros [= <-].
    rewrite (decode_char c b bt Hc), (IH bt eq_refl). reflexivity.
Qed.

Section AttachmentBytes.

Context {World Obj : Type}.
Variable py : runtime World Obj.
Variable db : aws_db_connection World Obj.

(** A request to [/api/sql/csv] answered with status 200 ran [_exec] and
    encoded the document written from what it returned. *)
Lemma api_sql_csv_success (b : body) (s s' : state World) (resp : response) :
  serve py db (PostSqlCsv b) s = (resp, s') ->
  status_of resp = 200%Z ->
  exists query cols rows rowcount duration_ms data,
    _exec py db query s = (inr (cols, rows, rowcount, duration_ms), s') /\
    encode_utf8 (csv_text py cols rows) = Some data /\
    resp = SendFile data (lit "text/csv") true (lit "query_results.csv").
Proof.
  unfold serve, handler, api_sql_csv, bind. intros H Hst.
  pose proof (stripped_field_state b (lit "query") s) as Hs.
  destruct (stripped_field b (lit "query") s) as [[e|query] s0].
  - destruct e; inversion H; subst; discriminate.
  - cbn in Hs. subst s0.
    destruct (_exec py db query s) as [[e|[[[cols rows] rc] d]] s1] eqn:He.
    + destruct e; inversion H; subst; discriminate.
    + destruct (encode_utf8 (csv_text py cols rows)) as [data|] eqn:Hu.
      * unfold ret in H. inversion H; subst.
        exists query, cols, rows, rc, d, data. auto.
      * unfold raise in H. inversion H; subst. discriminate.
Qed.

(** X17: the bytes of a successful CSV attachment, decoded as UTF-8 and
    read as CSV, are the column names (when there are any) followed by
    the full text of every cell of every fetched row. *)
Theorem attachment_bytes_hold_the_table (b : body) (s s' : state World)
    (resp : response) :
  serve py db (PostSqlCsv b) s = (resp, s') ->
  status_of resp = 200%Z ->
  exists query cols rows rowcount duration_ms data,
    _exec py db query s = (inr (cols, rows, rowcount, duration_ms), s') /\
    resp = SendFile data (lit "text/csv") true (lit "query_results.csv") /\
    option_map Csv.read (decode_utf8 data)
    = Some ((match cols with [] => [] | _ :: _ => [cols] end)
            ++ map (map (cell_text py)) rows).
Proof.
  intros H Hst.
  destruct (api_sql_csv_success b s s' resp H Hst)
    as (query & cols & rows & rc & d & data & He & Hu & Hr).
  exists query, cols, rows, rc, d, data.
  split; [exact He|]. split; [exact Hr|].
  rewrite (decode_encode _ _ Hu). cbn [option_map].
  rewrite read_csv_text. reflexivity.
Qed.

End AttachmentBytes.

Lemma attachment_bytes_hold_the_table_witness :
  let r := serve Demo.py Demo.db
             (PostSqlCsv (Demo.query_body (lit "SELECT * FROM notes")))
             Demo.start in
  exists query cols rows rowcount duration_ms data,
    _exec Demo.py Demo.db query Demo.start
    = (inr (cols, rows, rowcount, duration_ms), snd r) /\
    fst r = SendFile data (lit "text/csv") true (lit "query_results.csv") /\
    option_map Csv.read (decode_utf8 data)
    = Some ((match cols with [] => [] | _ :: _ => [cols] end)
            ++ map (map (cell_text Demo.py)) rows).
Proof.
  intros r.
  apply (@attachment_bytes_hold_the_table _ _ Demo.py Demo.db
           (Demo.query_body (lit "SELECT * FROM notes")) Demo.start _ _).
  - apply surjective_pairing.
  - vm_compute. reflexivity.
Defined.

(* ================================================================= *)
(** ** What of the body is looked at *)

Section BodyFields.

Context {World Obj : Type}.
Variable py : runtime World Obj.
Variable db : aws_db_connection World Obj.

Lemma payload_is_the_object (d : list (pystr * pyval)) :
  py_or (get_json_silent (JsonBody (PDict d))) (PDict []) = PDict d.
Proof. destruct d; reflexivity. Qed.

(** A POST route depends on its body only through the field it reads. *)
Lemma serve_depends_on_field (ep : post_endpoint) (b b' : body)
    (s : state World) :
  stripped_field b (expected_field ep) s
  = stripped_field b' (expected_field ep) s ->
  serve py db (post ep b) s = serve py db (post ep b') s.
Proof.
  intros H.
  destruct ep; unfold serve, post, handler, api_sql, api_sql_csv,
    api_create_database, api_connect_to, bind;
    cbn [expected_field] in H; rewrite H; reflexivity.
Qed.

(** X18: of a JSON object, a POST route looks at the expected field and
    at nothing else: two bodies that agree on that field get the same
    answer and leave the same state. *)
Theorem other_fields_ignored (ep : post_endpoint)
    (d d' : list (pystr * pyval)) (s : state World) :
  dict_get d (expected_field ep) = dict_get d' (expected_field ep) ->
  serve py db (post ep (JsonBody (PDict d))) s
  = serve py db (post ep (JsonBody (PDict d'))) s.
Proof.
  intros H. apply serve_depends_on_field.
  unfold stripped_field. rewrite !payload_is_the_object.
  unfold payload_get, bind, ret. rewrite H. reflexivity.
Qed.

End BodyFields.

Lemma other_fields_ignored_witness :
  serve Demo.py Demo.db
    (post SqlEndpoint
       (JsonBody (PDict [(lit "limit", PInt 5);
                         (lit "query", PStr (lit "SELECT 1"));
                         (lit "name", PStr (lit "shop"))])))
    Demo.start
  = serve Demo.py Demo.db
      (post SqlEndpoint (JsonBody (PDict [(lit "query", PStr (lit "SELECT 1"))])))
      Demo.start.
Proof.
  apply (other_fields_ignored Demo.py Demo.db SqlEndpoint
           [(lit "limit", PInt 5); (lit "query", PStr (lit "SELECT 1"));
            (lit "name", PStr (lit "shop"))]
           [(lit "query", PStr (lit "SELECT 1"))] Demo.start).
  reflexivity.
Defined.

Lemma collaborator_called_iff_nonblank_string_witness :
  calls (snd (serve Demo.py Demo.db
                (post SqlEndpoint (Demo.query_body (lit " SELECT 1")))
                Demo.start))
  <> calls Demo.start.
Proof.
  apply (proj2 (collaborator_called_iff_nonblank_string Demo.py Demo.db
                  SqlEndpoint (Demo.query_body (lit " SELECT 1")) Demo.start)).
  exists [(lit "query", PStr (lit " SELECT 1"))], (lit " SELECT 1").
  split; [reflexivity|]. split; [reflexivity|]. vm_compute. discriminate.
Defined.

Lemma table_schemas_parameter_and_failure_witness :
  fst (serve Demo.py Demo.db (GetTableSchemas (Some (lit "private")))
         Demo.start)
  = Json 400 (PDict [(lit "error", PStr (lit "schema does not exist"))]).
Proof.
  apply (proj2 (table_schemas_parameter_and_failure Demo.py Demo.db
                  (Some (lit "private")) Demo.start)
           (lit "schema does not exist") (world Demo.start)).
  reflexivity.
Defined.
